(** * TranslucentTB: the tray front end ([TranslucentTB/main.cpp])

    A shallow embedding of [main.cpp]: the configuration record and the
    references the tray menu keeps into it, loading, saving and replacing
    the configuration, the menu bindings built by [InitializeTray], the
    folder watcher and the message loop.  The taskbar worker itself
    ([taskbar/taskbarattributeworker.hpp]) is not part of [main.cpp]; its
    resolver and applier are modelled from the specification in the module
    [Core]. *)

From Stdlib Require Import ZArith NArith Bool Ascii String.
From stdpp Require Import base decidable countable gmap strings list fin_maps.

Local Open Scope string_scope.
Local Open Scope list_scope.

(** ** Enumerations *)

(** Modelled from the spec: [undoc/swca.hpp], which declares [ACCENT_STATE],
    is missing.  The five states are those of the specification's
    [TaskbarAppearance.Accent], under the names [main.cpp] uses for them. *)
Inductive ACCENT_STATE :=
| ACCENT_NORMAL
| ACCENT_ENABLE_TRANSPARENTGRADIENT
| ACCENT_ENABLE_GRADIENT
| ACCENT_ENABLE_BLURBEHIND
| ACCENT_ENABLE_ACRYLICBLURBEHIND.

Inductive PeekBehavior :=
| AlwaysShow
| WindowMaximisedOnMainMonitor
| WindowMaximisedOnAnyMonitor
| DesktopIsForegroundWindow
| AlwaysHide.

(** [spdlog::level::level_enum]. *)
Inductive level_enum :=
| level_trace | level_debug | level_info | level_warn
| level_err | level_critical | level_off.

#[global] Instance ACCENT_STATE_eq_dec : EqDecision ACCENT_STATE.
Proof. solve_decision. Defined.
#[global] Instance PeekBehavior_eq_dec : EqDecision PeekBehavior.
Proof. solve_decision. Defined.
#[global] Instance level_enum_eq_dec : EqDecision level_enum.
Proof. solve_decision. Defined.

Definition ACCENT_STATE_to_nat (a : ACCENT_STATE) : nat :=
  match a with
  | ACCENT_NORMAL => 0
  | ACCENT_ENABLE_TRANSPARENTGRADIENT => 1
  | ACCENT_ENABLE_GRADIENT => 2
  | ACCENT_ENABLE_BLURBEHIND => 3
  | ACCENT_ENABLE_ACRYLICBLURBEHIND => 4
  end.
Definition ACCENT_STATE_of_nat (n : nat) : option ACCENT_STATE :=
  match n with
  | 0 => Some ACCENT_NORMAL
  | 1 => Some ACCENT_ENABLE_TRANSPARENTGRADIENT
  | 2 => Some ACCENT_ENABLE_GRADIENT
  | 3 => Some ACCENT_ENABLE_BLURBEHIND
  | 4 => Some ACCENT_ENABLE_ACRYLICBLURBEHIND
  | _ => None
  end.
#[global] Program Instance ACCENT_STATE_countable : Countable ACCENT_STATE :=
  inj_countable ACCENT_STATE_to_nat ACCENT_STATE_of_nat _.
Next Obligation. by intros []. Qed.

Definition PeekBehavior_to_nat (p : PeekBehavior) : nat :=
  match p with
  | AlwaysShow => 0
  | WindowMaximisedOnMainMonitor => 1
  | WindowMaximisedOnAnyMonitor => 2
  | DesktopIsForegroundWindow => 3
  | AlwaysHide => 4
  end.
Definition PeekBehavior_of_nat (n : nat) : option PeekBehavior :=
  match n with
  | 0 => Some AlwaysShow
  | 1 => Some WindowMaximisedOnMainMonitor
  | 2 => Some WindowMaximisedOnAnyMonitor
  | 3 => Some DesktopIsForegroundWindow
  | 4 => Some AlwaysHide
  | _ => None
  end.
#[global] Program Instance PeekBehavior_countable : Countable PeekBehavior :=
  inj_countable PeekBehavior_to_nat PeekBehavior_of_nat _.
Next Obligation. by intros []. Qed.

Definition level_enum_to_nat (l : level_enum) : nat :=
  match l with
  | level_trace => 0 | level_debug => 1 | level_info => 2 | level_warn => 3
  | level_err => 4 | level_critical => 5 | level_off => 6
  end.
Definition level_enum_of_nat (n : nat) : option level_enum :=
  match n with
  | 0 => Some level_trace | 1 => Some level_debug | 2 => Some level_info
  | 3 => Some level_warn | 4 => Some level_err | 5 => Some level_critical
  | 6 => Some level_off | _ => None
  end.
#[global] Program Instance level_enum_countable : Countable level_enum :=
  inj_countable level_enum_to_nat level_enum_of_nat _.
Next Obligation. by intros []. Qed.

(** The menu command identifiers of [resources/ids.h] that [main.cpp] names.
    The header is missing, so the identifiers are kept symbolic (pairwise
    distinct, as resource identifiers of one menu are); their numeric values
    are a parameter of the environment below. *)
Inductive MenuId :=
| ID_DESKTOP_NORMAL | ID_DESKTOP_CLEAR | ID_DESKTOP_OPAQUE | ID_DESKTOP_BLUR | ID_DESKTOP_ACRYLIC
| ID_VISIBLE_NORMAL | ID_VISIBLE_CLEAR | ID_VISIBLE_OPAQUE | ID_VISIBLE_BLUR | ID_VISIBLE_ACRYLIC
| ID_MAXIMISED_NORMAL | ID_MAXIMISED_CLEAR | ID_MAXIMISED_OPAQUE | ID_MAXIMISED_BLUR | ID_MAXIMISED_ACRYLIC
| ID_START_NORMAL | ID_START_CLEAR | ID_START_OPAQUE | ID_START_BLUR | ID_START_ACRYLIC
| ID_CORTANA_NORMAL | ID_CORTANA_CLEAR | ID_CORTANA_OPAQUE | ID_CORTANA_BLUR | ID_CORTANA_ACRYLIC
| ID_TIMELINE_NORMAL | ID_TIMELINE_CLEAR | ID_TIMELINE_OPAQUE | ID_TIMELINE_BLUR | ID_TIMELINE_ACRYLIC
| ID_PEEK_SHOW | ID_PEEK_DYNAMIC_MAIN_MONITOR | ID_PEEK_DYNAMIC_ANY_MONITOR
| ID_PEEK_DYNAMIC_FOREGROUND_DESKTOP | ID_PEEK_HIDE
| ID_LOG_DEBUG | ID_LOG_INFO | ID_LOG_WARN | ID_LOG_ERR | ID_LOG_OFF
| ID_DESKTOP_COLOR | ID_VISIBLE_COLOR | ID_MAXIMISED_COLOR | ID_START_COLOR
| ID_CORTANA_COLOR | ID_TIMELINE_COLOR
| ID_DESKTOP_ON_PEEK | ID_VISIBLE | ID_MAXIMISED | ID_START | ID_CORTANA | ID_TIMELINE
| ID_AUTOSTART | ID_OPENLOG | ID_LOG | ID_EDITSETTINGS | ID_RETURNTODEFAULTSETTINGS
| ID_DISABLESAVING | ID_HIDETRAY | ID_DUMPWORKER | ID_RESETWORKER | ID_ABOUT
| ID_EXITWITHOUTSAVING | ID_TIPS | ID_EXIT.

Scheme Equality for MenuId.
#[global] Instance MenuId_EqDecision : EqDecision MenuId := MenuId_eq_dec.

(** ** The configuration ([config/config.hpp], fields as [main.cpp] uses them) *)

Definition COLORREF := N.

Record TaskbarAppearance := {
  Accent : ACCENT_STATE;
  Color : COLORREF
}.

(** [OptionalTaskbarAppearance] derives from [TaskbarAppearance]; [base] is the
    base-class subobject. *)
Record OptionalTaskbarAppearance := {
  Enabled : bool;
  base : TaskbarAppearance
}.

Record Config := {
  DesktopAppearance : TaskbarAppearance;
  VisibleWindowAppearance : OptionalTaskbarAppearance;
  MaximisedWindowAppearance : OptionalTaskbarAppearance;
  StartOpenedAppearance : OptionalTaskbarAppearance;
  CortanaOpenedAppearance : OptionalTaskbarAppearance;
  TimelineOpenedAppearance : OptionalTaskbarAppearance;
  Peek : PeekBehavior;
  UseRegularAppearanceWhenPeeking : bool;
  HideTray : bool;
  DisableSaving : bool;
  LogVerbosity : level_enum
}.

#[global] Instance TaskbarAppearance_eq_dec : EqDecision TaskbarAppearance.
Proof. solve_decision. Defined.
#[global] Instance OptionalTaskbarAppearance_eq_dec : EqDecision OptionalTaskbarAppearance.
Proof. solve_decision. Defined.
#[global] Instance Config_eq_dec : EqDecision Config.
Proof. solve_decision. Defined.

(** *** References into the shared configuration

    The menu bindings capture C++ references to members of the one shared
    [Config] object ([bool &value], [T &value], [COLORREF &color]).  A
    reference is modelled as a getter and a setter on [Config] together with
    the member's path; every reference therefore aliases the same stored
    value. *)

Definition set_DesktopAppearance (v : TaskbarAppearance) (c : Config) : Config :=
  Build_Config v (VisibleWindowAppearance c) (MaximisedWindowAppearance c)
    (StartOpenedAppearance c) (CortanaOpenedAppearance c) (TimelineOpenedAppearance c)
    (Peek c) (UseRegularAppearanceWhenPeeking c) (HideTray c) (DisableSaving c) (LogVerbosity c).
Definition set_VisibleWindowAppearance (v : OptionalTaskbarAppearance) (c : Config) : Config :=
  Build_Config (DesktopAppearance c) v (MaximisedWindowAppearance c)
    (StartOpenedAppearance c) (CortanaOpenedAppearance c) (TimelineOpenedAppearance c)
    (Peek c) (UseRegularAppearanceWhenPeeking c) (HideTray c) (DisableSaving c) (LogVerbosity c).
Definition set_MaximisedWindowAppearance (v : OptionalTaskbarAppearance) (c : Config) : Config :=
  Build_Config (DesktopAppearance c) (VisibleWindowAppearance c) v
    (StartOpenedAppearance c) (CortanaOpenedAppearance c) (TimelineOpenedAppearance c)
    (Peek c) (UseRegularAppearanceWhenPeeking c) (HideTray c) (DisableSaving c) (LogVerbosity c).
Definition set_StartOpenedAppearance (v : OptionalTaskbarAppearance) (c : Config) : Config :=
  Build_Config (DesktopAppearance c) (VisibleWindowAppearance c) (MaximisedWindowAppearance c)
    v (CortanaOpenedAppearance c) (TimelineOpenedAppearance c)
    (Peek c) (UseRegularAppearanceWhenPeeking c) (HideTray c) (DisableSaving c) (LogVerbosity c).
Definition set_CortanaOpenedAppearance (v : OptionalTaskbarAppearance) (c : Config) : Config :=
  Build_Config (DesktopAppearance c) (VisibleWindowAppearance c) (MaximisedWindowAppearance c)
    (StartOpenedAppearance c) v (TimelineOpenedAppearance c)
    (Peek c) (UseRegularAppearanceWhenPeeking c) (HideTray c) (DisableSaving c) (LogVerbosity c).
Definition set_TimelineOpenedAppearance (v : OptionalTaskbarAppearance) (c : Config) : Config :=
  Build_Config (DesktopAppearance c) (VisibleWindowAppearance c) (MaximisedWindowAppearance c)
    (StartOpenedAppearance c) (CortanaOpenedAppearance c) v
    (Peek c) (UseRegularAppearanceWhenPeeking c) (HideTray c) (DisableSaving c) (LogVerbosity c).
Definition set_Peek (v : PeekBehavior) (c : Config) : Config :=
  Build_Config (DesktopAppearance c) (VisibleWindowAppearance c) (MaximisedWindowAppearance c)
    (StartOpenedAppearance c) (CortanaOpenedAppearance c) (TimelineOpenedAppearance c)
    v (UseRegularAppearanceWhenPeeking c) (HideTray c) (DisableSaving c) (LogVerbosity c).
Definition set_UseRegularAppearanceWhenPeeking (v : bool) (c : Config) : Config :=
  Build_Config (DesktopAppearance c) (VisibleWindowAppearance c) (MaximisedWindowAppearance c)
    (StartOpenedAppearance c) (CortanaOpenedAppearance c) (TimelineOpenedAppearance c)
    (Peek c) v (HideTray c) (DisableSaving c) (LogVerbosity c).
Definition set_HideTray (v : bool) (c : Config) : Config :=
  Build_Config (DesktopAppearance c) (VisibleWindowAppearance c) (MaximisedWindowAppearance c)
    (StartOpenedAppearance c) (CortanaOpenedAppearance c) (TimelineOpenedAppearance c)
    (Peek c) (UseRegularAppearanceWhenPeeking c) v (DisableSaving c) (LogVerbosity c).
Definition set_DisableSaving (v : bool) (c : Config) : Config :=
  Build_Config (DesktopAppearance c) (VisibleWindowAppearance c) (MaximisedWindowAppearance c)
    (StartOpenedAppearance c) (CortanaOpenedAppearance c) (TimelineOpenedAppearance c)
    (Peek c) (UseRegularAppearanceWhenPeeking c) (HideTray c) v (LogVerbosity c).
Definition set_LogVerbosity (v : level_enum) (c : Config) : Config :=
  Build_Config (DesktopAppearance c) (VisibleWindowAppearance c) (MaximisedWindowAppearance c)
    (StartOpenedAppearance c) (CortanaOpenedAppearance c) (TimelineOpenedAppearance c)
    (Peek c) (UseRegularAppearanceWhenPeeking c) (HideTray c) (DisableSaving c) v.

Record Ref (A : Type) := {
  ref_path : string;
  ref_get : Config → A;
  ref_set : A → Config → Config
}.
Arguments ref_path {A} _.
Arguments ref_get {A} _ _.
Arguments ref_set {A} _ _ _.

Module cfg_ref.
Definition DesktopAppearance : Ref TaskbarAppearance :=
  {| ref_path := "DesktopAppearance";
     ref_get := DesktopAppearance; ref_set := set_DesktopAppearance |}.
Definition VisibleWindowAppearance : Ref OptionalTaskbarAppearance :=
  {| ref_path := "VisibleWindowAppearance";
     ref_get := VisibleWindowAppearance; ref_set := set_VisibleWindowAppearance |}.
Definition MaximisedWindowAppearance : Ref OptionalTaskbarAppearance :=
  {| ref_path := "MaximisedWindowAppearance";
     ref_get := MaximisedWindowAppearance; ref_set := set_MaximisedWindowAppearance |}.
Definition StartOpenedAppearance : Ref OptionalTaskbarAppearance :=
  {| ref_path := "StartOpenedAppearance";
     ref_get := StartOpenedAppearance; ref_set := set_StartOpenedAppearance |}.
Definition CortanaOpenedAppearance : Ref OptionalTaskbarAppearance :=
  {| ref_path := "CortanaOpenedAppearance";
     ref_get := CortanaOpenedAppearance; ref_set := set_CortanaOpenedAppearance |}.
Definition TimelineOpenedAppearance : Ref OptionalTaskbarAppearance :=
  {| ref_path := "TimelineOpenedAppearance";
     ref_get := TimelineOpenedAppearance; ref_set := set_TimelineOpenedAppearance |}.
Definition Peek : Ref PeekBehavior :=
  {| ref_path := "Peek"; ref_get := Peek; ref_set := set_Peek |}.
Definition UseRegularAppearanceWhenPeeking : Ref bool :=
  {| ref_path := "UseRegularAppearanceWhenPeeking";
     ref_get := UseRegularAppearanceWhenPeeking;
     ref_set := set_UseRegularAppearanceWhenPeeking |}.
Definition HideTray : Ref bool :=
  {| ref_path := "HideTray"; ref_get := HideTray; ref_set := set_HideTray |}.
Definition DisableSaving : Ref bool :=
  {| ref_path := "DisableSaving"; ref_get := DisableSaving; ref_set := set_DisableSaving |}.
Definition LogVerbosity : Ref level_enum :=
  {| ref_path := "LogVerbosity"; ref_get := LogVerbosity; ref_set := set_LogVerbosity |}.
End cfg_ref.

(** [appearance.Accent], [appearance.Color] for a [TaskbarAppearance &]. *)
Definition ref_Accent (r : Ref TaskbarAppearance) : Ref ACCENT_STATE :=
  {| ref_path := ref_path r +:+ ".Accent";
     ref_get c := Accent (ref_get r c);
     ref_set v c := ref_set r {| Accent := v; Color := Color (ref_get r c) |} c |}.
Definition ref_Color (r : Ref TaskbarAppearance) : Ref COLORREF :=
  {| ref_path := ref_path r +:+ ".Color";
     ref_get c := Color (ref_get r c);
     ref_set v c := ref_set r {| Accent := Accent (ref_get r c); Color := v |} c |}.
(** [appearance.Enabled], and the conversion of an
    [OptionalTaskbarAppearance &] to a reference to its base. *)
Definition ref_Enabled (r : Ref OptionalTaskbarAppearance) : Ref bool :=
  {| ref_path := ref_path r +:+ ".Enabled";
     ref_get c := Enabled (ref_get r c);
     ref_set v c := ref_set r {| Enabled := v; base := base (ref_get r c) |} c |}.
Definition ref_base (r : Ref OptionalTaskbarAppearance) : Ref TaskbarAppearance :=
  {| ref_path := ref_path r;
     ref_get c := base (ref_get r c);
     ref_set v c := ref_set r {| Enabled := Enabled (ref_get r c); base := v |} c |}.

(** ** Program state *)

(** One store into the shared [Config]: an assignment of the whole object, or
    an assignment through a reference to one member. *)
Inductive Store :=
| StoreWhole
| StoreMember (path : string).

#[global] Instance Store_eq_dec : EqDecision Store.
Proof. solve_decision. Defined.

(** An entry of the file system, as [std::filesystem::status] sees it; a path
    absent from the map does not exist. *)
Inductive Node :=
| RegularFile (content : string)
| Directory
| OtherNode.

#[global] Instance Node_eq_dec : EqDecision Node.
Proof. solve_decision. Defined.

(** A path is kept as its text; both separators of Windows separate its
    components. *)
Definition is_separator (c : ascii) : bool :=
  bool_decide (c = "/"%char) || bool_decide (c = ascii_of_nat 92).

Fixpoint drop_while {A} (f : A → bool) (l : list A) : list A :=
  match l with
  | [] => []
  | x :: l' => if f x then drop_while f l' else l
  end.

(** [path::parent_path]: the last component goes, and the separators
    before it; the separator of a root directory stays, so that the parent
    of a path directly below a drive is the root directory of the drive.
    The parent of a bare name is the empty path, which stands for the
    current directory. *)
Definition parent_path (p : string) : string :=
  let above := drop_while (λ c, negb (is_separator c)) (rev (list_ascii_of_string p)) in
  let folder := drop_while is_separator above in
  let is_root :=
    match folder with
    | [] => true
    | c :: _ => bool_decide (c = ":"%char)
    end in
  string_of_list_ascii (rev (if is_root then take 1 above ++ folder else folder)).

(** A path lies in the tree of [dir] when it is [dir] or continues [dir]
    after a separator. *)
Definition path_inside (dir p : string) : bool :=
  bool_decide (p = dir)
  || (String.prefix dir p
      && match String.get (String.length dir) p with
         | Some c => is_separator c
         | None => false
         end).

Inductive MsgId :=
| WM_FILECHANGED | WM_CLOSE | WM_QUERYENDSESSION | WM_ENDSESSION
| WM_OTHER (code : N).

#[global] Instance MsgId_eq_dec : EqDecision MsgId.
Proof. solve_decision. Defined.

Record Message := { msg : MsgId; wParam : Z; lParam : Z }.

(** Modelled from the spec: [taskbar/taskbarattributeworker.hpp] is missing.
    [main.cpp] names the worker's [DumpState] and [ResetState]; [ApplyNow]
    and the config-changed entry point are the further two the specification
    lists. *)
Inductive EntryPoint :=
| ApplyNow | DumpState | ResetState | ConfigChanged.

#[global] Instance EntryPoint_eq_dec : EqDecision EntryPoint.
Proof. solve_decision. Defined.

(** [Autostart::StartupState] and the state [Log::GetInitializationState]
    returns. *)
Inductive StartupState :=
| Disabled | DisabledByUser | DisabledByPolicy | StartupEnabled | EnabledByPolicy.
Inductive InitializationState := NotInitialized | Done | Failed.

#[global] Instance StartupState_eq_dec : EqDecision StartupState.
Proof. solve_decision. Defined.
#[global] Instance InitializationState_eq_dec : EqDecision InitializationState.
Proof. solve_decision. Defined.

(** Calls that leave the program, in the order they are made. *)
Inductive Call :=
| Call_WriteFile (file : string)
| Call_EditFile (file : string)
| Call_OpenLink (url : string)
| Call_LogOpen
| Call_MessageBox (text : string)
| Call_RegisterApplicationRestart
| Call_AboutDialog
| Call_SetStartupState (s : StartupState)
| Call_Worker (e : EntryPoint).

#[global] Instance Call_eq_dec : EqDecision Call.
Proof. solve_decision. Defined.

Record State := {
  cfg : Config;                    (* static Config cfg *)
  cfg_stores : list Store;         (* history of the stores into cfg *)
  files : gmap string Node;        (* the file system *)
  queue : list Message;            (* messages posted to the tray window *)
  tray_shown : bool;               (* the tray icon is visible *)
  log_level : level_enum;          (* Log::GetLevel() *)
  log_init : InitializationState;  (* Log::GetInitializationState() *)
  autostart : StartupState;        (* what Autostart::GetStartupState yields *)
  msgbox_yes : bool;               (* the user answers IDYES to MessageBox *)
  quit : option Z;                 (* PostQuitMessage was called with this code *)
  calls : list Call                (* calls made so far *)
}.

Definition with_cfg (c : Config) (s : list Store) (st : State) : State :=
  Build_State c s (files st) (queue st) (tray_shown st) (log_level st) (log_init st)
    (autostart st) (msgbox_yes st) (quit st) (calls st).
Definition with_files (f : gmap string Node) (st : State) : State :=
  Build_State (cfg st) (cfg_stores st) f (queue st) (tray_shown st) (log_level st)
    (log_init st) (autostart st) (msgbox_yes st) (quit st) (calls st).
Definition with_queue (q : list Message) (st : State) : State :=
  Build_State (cfg st) (cfg_stores st) (files st) q (tray_shown st) (log_level st)
    (log_init st) (autostart st) (msgbox_yes st) (quit st) (calls st).
Definition with_tray_shown (b : bool) (st : State) : State :=
  Build_State (cfg st) (cfg_stores st) (files st) (queue st) b (log_level st)
    (log_init st) (autostart st) (msgbox_yes st) (quit st) (calls st).
Definition with_log_level (l : level_enum) (st : State) : State :=
  Build_State (cfg st) (cfg_stores st) (files st) (queue st) (tray_shown st) l
    (log_init st) (autostart st) (msgbox_yes st) (quit st) (calls st).
Definition with_quit (q : option Z) (st : State) : State :=
  Build_State (cfg st) (cfg_stores st) (files st) (queue st) (tray_shown st) (log_level st)
    (log_init st) (autostart st) (msgbox_yes st) q (calls st).
Definition with_calls (c : list Call) (st : State) : State :=
  Build_State (cfg st) (cfg_stores st) (files st) (queue st) (tray_shown st) (log_level st)
    (log_init st) (autostart st) (msgbox_yes st) (quit st) c.

(** [current = newConfig]: the whole object is assigned. *)
Definition assign_config (c : Config) (st : State) : State :=
  with_cfg c (cfg_stores st ++ [StoreWhole]) st.
(** [value = v] through a reference [value] to a member of [cfg]. *)
Definition assign_member {A} (r : Ref A) (v : A) (st : State) : State :=
  with_cfg (ref_set r v (cfg st)) (cfg_stores st ++ [StoreMember (ref_path r)]) st.

Definition TrayIcon_Hide (st : State) : State := with_tray_shown false st.
Definition TrayIcon_Show (st : State) : State := with_tray_shown true st.
Definition Log_SetLevel (l : level_enum) (st : State) : State := with_log_level l st.
Definition Log_GetLevel (st : State) : level_enum := log_level st.
Definition post_message (m : MsgId) (st : State) : State :=
  with_queue (queue st ++ [{| msg := m; wParam := 0; lParam := 0 |}]) st.
Definition PostQuitMessage (code : Z) (st : State) : State := with_quit (Some code) st.
Definition call (c : Call) (st : State) : State := with_calls (calls st ++ [c]) st.

(** ** What [main.cpp] takes from the rest of the program

    Constants, helpers and members declared in headers that are not part of
    this file, and what the system decides. *)
Record Env := {
  APP_NAME : string;                                  (* constants.hpp *)
  CONFIG_FILE : string;                               (* constants.hpp *)
  HasPackageIdentity : bool;                          (* UWP::HasPackageIdentity() *)
  IgnoreCaseStringEquals : string → string → bool;    (* Util:: *)
  DefaultConfig : Config;                             (* Config { } *)
  (* doc.ParseStream(...) followed by cfg.Deserialize(doc), on the text read *)
  Deserialize : Config → string → Config;
  (* what StartObject; cfg.Serialize(writer); EndObject writes *)
  Serialize : Config → string;
  id_value : MenuId → N;                              (* resources/ids.h *)
  config_folder : string;                             (* run.config_folder *)
  config_file : string;                               (* run.config_file *)
  (* the system lets the program create, overwrite or delete the entry at
     this path: access rights, locks held by other programs, whether it
     accepts the name at all *)
  may_write : string → bool
}.

Definition endl : string := String "010"%char EmptyString.
Definition TRUE : Z := 1.
Definition ENDSESSION_CLOSEAPP : Z := 1.

(** Menu updates a [TrayContextMenu::Updater] performs. *)
Inductive UpdaterOp :=
| CheckRadio (first last item : MenuId)
| CheckItem (item : MenuId) (state : bool)
| EnableItem (item : MenuId) (state : bool)
| SetText (item : MenuId) (text : string)
| RemoveItem (item : MenuId).

(** [tray/traycontextmenu.hpp] and [windows/messagewindow.hpp] are missing;
    the two classes are modelled by the tables their registration methods
    fill.  A custom refresh only reads the state and drives the updater;
    [None] is an exception leaving it ([map.at] on an absent key). *)
Record TrayContextMenu := {
  callbacks : list (MenuId * (State → State));
  refreshes : list (State → option (list UpdaterOp));
  updates : list UpdaterOp
}.

Record MessageWindow := {
  handlers : list (MsgId * (Z → Z → State → State * Z))
}.

Definition RegisterContextMenuCallback (id : MenuId) (f : State → State)
    (tray : TrayContextMenu) : TrayContextMenu :=
  {| callbacks := callbacks tray ++ [(id, f)];
     refreshes := refreshes tray; updates := updates tray |}.
Definition RegisterCustomRefresh (f : State → option (list UpdaterOp))
    (tray : TrayContextMenu) : TrayContextMenu :=
  {| callbacks := callbacks tray;
     refreshes := refreshes tray ++ [f]; updates := updates tray |}.
Definition Update (op : UpdaterOp) (tray : TrayContextMenu) : TrayContextMenu :=
  {| callbacks := callbacks tray;
     refreshes := refreshes tray; updates := updates tray ++ [op] |}.
Definition RegisterCallback (m : MsgId) (f : Z → Z → State → State * Z)
    (w : MessageWindow) : MessageWindow :=
  {| handlers := handlers w ++ [(m, f)] |}.

(** Activating the menu item [id]: the callbacks registered for it run, in
    registration order. *)
Definition activate (tray : TrayContextMenu) (id : MenuId) (st : State) : State :=
  foldl (λ s '(i, f), if decide (i = id) then f s else s) st (callbacks tray).

(** The window procedure: the callback registered for the message runs; a
    message without one is left to the default procedure. *)
Definition dispatch (w : MessageWindow) (m : Message) (st : State) : State * Z :=
  match list_find (λ h, h.1 = msg m) (handlers w) with
  | Some (_, (_, f)) => f (wParam m) (lParam m) st
  | None => (st, 0%Z)
  end.

(** [std::minmax_element]: the first smallest and the last largest element. *)
Definition minmax_element {A} (lt : A → A → bool) (l : list A) : option (A * A) :=
  match l with
  | [] => None
  | x :: l' =>
      Some (foldl (λ '(mn, mx) y,
                     (if lt y mn then y else mn, if lt y mx then mx else y))
                  (x, x) l')
  end.

(** *** Region Data *)

Definition DESKTOP_BUTTOM_MAP : gmap ACCENT_STATE MenuId := list_to_map [
  (ACCENT_NORMAL,                     ID_DESKTOP_NORMAL);
  (ACCENT_ENABLE_TRANSPARENTGRADIENT, ID_DESKTOP_CLEAR);
  (ACCENT_ENABLE_GRADIENT,            ID_DESKTOP_OPAQUE);
  (ACCENT_ENABLE_BLURBEHIND,          ID_DESKTOP_BLUR);
  (ACCENT_ENABLE_ACRYLICBLURBEHIND,   ID_DESKTOP_ACRYLIC) ].

Definition VISIBLE_BUTTOM_MAP : gmap ACCENT_STATE MenuId := list_to_map [
  (ACCENT_NORMAL,                     ID_VISIBLE_NORMAL);
  (ACCENT_ENABLE_TRANSPARENTGRADIENT, ID_VISIBLE_CLEAR);
  (ACCENT_ENABLE_GRADIENT,            ID_VISIBLE_OPAQUE);
  (ACCENT_ENABLE_BLURBEHIND,          ID_VISIBLE_BLUR);
  (ACCENT_ENABLE_ACRYLICBLURBEHIND,   ID_VISIBLE_ACRYLIC) ].

Definition MAXIMISED_BUTTON_MAP : gmap ACCENT_STATE MenuId := list_to_map [
  (ACCENT_NORMAL,                     ID_MAXIMISED_NORMAL);
  (ACCENT_ENABLE_TRANSPARENTGRADIENT, ID_MAXIMISED_CLEAR);
  (ACCENT_ENABLE_GRADIENT,            ID_MAXIMISED_OPAQUE);
  (ACCENT_ENABLE_BLURBEHIND,          ID_MAXIMISED_BLUR);
  (ACCENT_ENABLE_ACRYLICBLURBEHIND,   ID_MAXIMISED_ACRYLIC) ].

Definition START_BUTTON_MAP : gmap ACCENT_STATE MenuId := list_to_map [
  (ACCENT_NORMAL,                     ID_START_NORMAL);
  (ACCENT_ENABLE_TRANSPARENTGRADIENT, ID_START_CLEAR);
  (ACCENT_ENABLE_GRADIENT,            ID_START_OPAQUE);
  (ACCENT_ENABLE_BLURBEHIND,          ID_START_BLUR);
  (ACCENT_ENABLE_ACRYLICBLURBEHIND,   ID_START_ACRYLIC) ].

Definition CORTANA_BUTTON_MAP : gmap ACCENT_STATE MenuId := list_to_map [
  (ACCENT_NORMAL,                     ID_CORTANA_NORMAL);
  (ACCENT_ENABLE_TRANSPARENTGRADIENT, ID_CORTANA_CLEAR);
  (ACCENT_ENABLE_GRADIENT,            ID_CORTANA_OPAQUE);
  (ACCENT_ENABLE_BLURBEHIND,          ID_CORTANA_BLUR);
  (ACCENT_ENABLE_ACRYLICBLURBEHIND,   ID_CORTANA_ACRYLIC) ].

Definition TIMELINE_BUTTON_MAP : gmap ACCENT_STATE MenuId := list_to_map [
  (ACCENT_NORMAL,                     ID_TIMELINE_NORMAL);
  (ACCENT_ENABLE_TRANSPARENTGRADIENT, ID_TIMELINE_CLEAR);
  (ACCENT_ENABLE_GRADIENT,            ID_TIMELINE_OPAQUE);
  (ACCENT_ENABLE_BLURBEHIND,          ID_TIMELINE_BLUR);
  (ACCENT_ENABLE_ACRYLICBLURBEHIND,   ID_TIMELINE_ACRYLIC) ].

Definition PEEK_BUTTON_MAP : gmap PeekBehavior MenuId := list_to_map [
  (AlwaysShow,                   ID_PEEK_SHOW);
  (WindowMaximisedOnMainMonitor, ID_PEEK_DYNAMIC_MAIN_MONITOR);
  (WindowMaximisedOnAnyMonitor,  ID_PEEK_DYNAMIC_ANY_MONITOR);
  (DesktopIsForegroundWindow,    ID_PEEK_DYNAMIC_FOREGROUND_DESKTOP);
  (AlwaysHide,                   ID_PEEK_HIDE) ].

Definition LOG_BUTTON_MAP : gmap level_enum MenuId := list_to_map [
  (level_debug, ID_LOG_DEBUG);
  (level_info,  ID_LOG_INFO);
  (level_warn,  ID_LOG_WARN);
  (level_err,   ID_LOG_ERR);
  (level_off,   ID_LOG_OFF) ].

(** Every map of the program from accent states to menu identifiers. *)
Definition accent_maps : list (gmap ACCENT_STATE MenuId) :=
  [ DESKTOP_BUTTOM_MAP; VISIBLE_BUTTOM_MAP; MAXIMISED_BUTTON_MAP;
    START_BUTTON_MAP; CORTANA_BUTTON_MAP; TIMELINE_BUTTON_MAP ].

Section Program.
Context (E : Env).

(** *** Region Configuration *)

Definition is_regular_file (fs : gmap string Node) (file : string) : bool :=
  match fs !! file with
  | Some (RegularFile _) => true
  | _ => false
  end.

(** What a [std::wifstream] opened on [file] delivers. *)
Definition read_file (fs : gmap string Node) (file : string) : string :=
  match fs !! file with
  | Some (RegularFile text) => text
  | _ => EmptyString
  end.

Definition LoadConfig (fs : gmap string Node) (file : string) : Config :=
  let cfg := DefaultConfig E in
  if is_regular_file fs file then Deserialize E cfg (read_file fs file)
  else cfg.

(** What the stream receives: the comment line, then the serialized
    configuration. *)
Definition saved_text (cfg : Config) : string :=
  "// For reference on this format, see TODO" +:+ endl +:+ Serialize E cfg.

Definition is_directory (fs : gmap string Node) (p : string) : bool :=
  match fs !! p with
  | Some Directory => true
  | _ => false
  end.

(** [std::wofstream fileStream(file)]: whether the stream opens.  It does
    not on a directory, nor where the system refuses; and a file that is not
    there yet is created only in a folder that is there. *)
Definition opens_for_writing (fs : gmap string Node) (file : string) : bool :=
  match fs !! file with
  | Some Directory => false
  | Some _ => may_write E file
  | None => is_directory fs (parent_path file) && may_write E file
  end.

(** The file system once [text] has gone through a stream opened on [file]:
    the file holds the text; an entry that is neither a file nor a directory
    (a device, a pipe) takes the text and stays what it is. *)
Definition write_file (fs : gmap string Node) (file text : string) : gmap string Node :=
  match fs !! file with
  | Some OtherNode => fs
  | _ => <[file := RegularFile text]> fs
  end.

(** The stream is never tested.  When it has opened, the text goes to the
    file; when it has not, every output to it fails silently and nothing is
    written. *)
Definition SaveConfig (cfg : Config) (file : string) (override : bool)
    (st : State) : State :=
  if override || negb (DisableSaving cfg) then
    if opens_for_writing (files st) file then
      call (Call_WriteFile file)
           (with_files (write_file (files st) file (saved_text cfg)) st)
    else st
  else st.

(** The directory [dir] holds an entry. *)
Definition has_entries (fs : gmap string Node) (dir : string) : bool :=
  existsb (λ kv, negb (bool_decide (kv.1 = dir)) && path_inside dir kv.1) (map_to_list fs).

(** [std::filesystem::remove]: the entry at [p] goes, and the answer is
    whether there was one.  [None] is the [filesystem_error] it throws: for a
    directory that is not empty, and where the system refuses. *)
Definition remove (p : string) (fs : gmap string Node) : option (bool * gmap string Node) :=
  match fs !! p with
  | None => Some (false, fs)
  | Some node =>
      if (match node with Directory => has_entries fs p | _ => false end)
         || negb (may_write E p)
      then None
      else Some (true, delete p fs)
  end.

(** [std::filesystem::remove_all]: the entry at [dir] and everything below
    it go.  [None] is the [filesystem_error] it throws where the system
    refuses for one of them. *)
Definition remove_all (dir : string) (fs : gmap string Node) : option (gmap string Node) :=
  if forallb (λ kv, negb (path_inside dir kv.1) || may_write E kv.1) (map_to_list fs)
  then Some (filter (λ kv, path_inside dir kv.1 = false) fs)
  else None.

(** [current] is always the shared [cfg]. *)
Definition SetConfig (newConfig : Config) (st : State) : State :=
  let st1 :=
    if bool_decide (HideTray (cfg st) ≠ HideTray newConfig) then
      if HideTray newConfig then TrayIcon_Hide st else TrayIcon_Show st
    else st in
  let st2 :=
    if bool_decide (LogVerbosity (cfg st1) ≠ LogVerbosity newConfig) then
      Log_SetLevel (LogVerbosity newConfig) st1
    else st1 in
  assign_config newConfig st2.

(** *** Region Tray *)

Definition BindColor (tray : TrayContextMenu) (id : MenuId) (color : Ref COLORREF)
    : TrayContextMenu :=
  (* TODO: no-op *)
  tray.

(** [Util::map_value_compare]: entries are ordered by their menu id. *)
Definition map_value_compare {T} (a b : T * MenuId) : bool :=
  bool_decide (id_value E a.2 < id_value E b.2)%N.

(** Dereferencing the iterators [minmax_element] returns is undefined on an
    empty map; no refresh is registered for one here. *)
Definition BindByMap {T} `{Countable T} (tray : TrayContextMenu)
    (map : gmap T MenuId) (getter : State → T) (setter : T → State → State)
    : TrayContextMenu :=
  let tray1 :=
    foldl (λ tr '(new_value, id), RegisterContextMenuCallback id (setter new_value) tr)
          tray (map_to_list map) in
  match minmax_element map_value_compare (map_to_list map) with
  | Some (min_p, max_p) =>
      RegisterCustomRefresh
        (λ st, item ← map !! getter st; Some [CheckRadio min_p.2 max_p.2 item]) tray1
  | None => tray1
  end.

Definition BindByMap_ref {T} `{Countable T} (tray : TrayContextMenu)
    (map : gmap T MenuId) (value : Ref T) : TrayContextMenu :=
  BindByMap tray map
    (λ st, ref_get value (cfg st))
    (λ new_value st, assign_member value new_value st).

Definition BindBool (tray : TrayContextMenu) (item : MenuId) (value : Ref bool)
    : TrayContextMenu :=
  let tray1 :=
    RegisterContextMenuCallback item
      (λ st, assign_member value (negb (ref_get value (cfg st))) st) tray in
  RegisterCustomRefresh (λ st, Some [CheckItem item (ref_get value (cfg st))]) tray1.

Definition BindBoolToEnabled (tray : TrayContextMenu) (item : MenuId) (value : Ref bool)
    : TrayContextMenu :=
  RegisterCustomRefresh (λ st, Some [EnableItem item (ref_get value (cfg st))]) tray.

Definition BindAppearance (tray : TrayContextMenu) (appearance : Ref TaskbarAppearance)
    (colorId : MenuId) (map : gmap ACCENT_STATE MenuId) : TrayContextMenu :=
  let tray1 := BindColor tray colorId (ref_Color appearance) in
  BindByMap_ref tray1 map (ref_Accent appearance).

Definition BindAppearance_optional (tray : TrayContextMenu)
    (appearance : Ref OptionalTaskbarAppearance) (enableId colorId : MenuId)
    (map : gmap ACCENT_STATE MenuId) : TrayContextMenu :=
  let tray1 := BindBool tray enableId (ref_Enabled appearance) in
  let tray2 := BindAppearance tray1 (ref_base appearance) colorId map in
  foldl (λ tr '(_, id), BindBoolToEnabled tr id (ref_Enabled appearance))
        tray2 (map_to_list map).

Definition EnableAppearanceColor (id : MenuId) (appearance : OptionalTaskbarAppearance)
    : UpdaterOp :=
  EnableItem id (Enabled appearance && bool_decide (Accent (base appearance) ≠ ACCENT_NORMAL)).

(** The updates up to the [co_await], then those made once the startup
    state has arrived. *)
Definition RefreshMenu (st : State) : option (list UpdaterOp) :=
  let cfg := cfg st in
  let log_state := log_init st in
  let state := autostart st in
  Some (
    [ EnableItem ID_AUTOSTART false; CheckItem ID_AUTOSTART false ]
    ++ (if HasPackageIdentity E
        then [ SetText ID_AUTOSTART "Querying startup state..." ] else [])
    ++ [ EnableItem ID_OPENLOG (bool_decide (log_state = Done));
         SetText ID_OPENLOG
           (if bool_decide (log_state = Done) then "Open log file"
            else if bool_decide (log_state = Failed)
                 then "Error when initializing log file"
                 else "Nothing has been logged yet");
         EnableItem ID_LOG (bool_decide (log_state ≠ Failed));
         CheckItem ID_LOG (bool_decide (Log_GetLevel st ≠ level_off));
         EnableItem ID_DESKTOP_COLOR
           (bool_decide (Accent (DesktopAppearance cfg) ≠ ACCENT_NORMAL));
         EnableAppearanceColor ID_VISIBLE_COLOR (VisibleWindowAppearance cfg);
         EnableAppearanceColor ID_MAXIMISED_COLOR (MaximisedWindowAppearance cfg);
         EnableAppearanceColor ID_START_COLOR (StartOpenedAppearance cfg);
         EnableAppearanceColor ID_CORTANA_COLOR (CortanaOpenedAppearance cfg);
         EnableAppearanceColor ID_TIMELINE_COLOR (TimelineOpenedAppearance cfg) ]
    ++ (if HasPackageIdentity E then
          [ EnableItem ID_AUTOSTART
              (negb (bool_decide (state = DisabledByUser)
                     || bool_decide (state = DisabledByPolicy)
                     || bool_decide (state = EnabledByPolicy)));
            CheckItem ID_AUTOSTART
              (bool_decide (state = StartupEnabled) || bool_decide (state = EnabledByPolicy));
            SetText ID_AUTOSTART
              match state with
              | DisabledByUser => "Startup has been disabled in Task Manager"
              | DisabledByPolicy => "Startup has been disabled in Group Policy"
              | EnabledByPolicy => "Startup has been enabled in Group Policy"
              | StartupEnabled | Disabled => "Open at boot"
              end ]
        else [])).

(** *** Region Startup *)

(** What [InitializeTray] sets up: the tray window with its message
    callbacks, the tray menu with its bindings, and the callback of the
    folder change reader, which the system runs on a thread of its own. *)
Record App := {
  window : MessageWindow;
  tray : TrayContextMenu;
  watcher : string → State → State
}.

Definition save_and_exit (st : State) : State * Z :=
  (PostQuitMessage 0 (SaveConfig (cfg st) (config_file E) false st), TRUE).

Definition hide_tray_text : string :=
  "To see the tray icon again, "
  +:+ (if HasPackageIdentity E
       then "reset " +:+ APP_NAME E +:+ " in the Settings app or " else EmptyString)
  +:+ "edit the configuration file at " +:+ config_file E
  +:+ "." +:+ endl +:+ endl +:+ "Are you sure you want to proceed?".

(** The worker is constructed on a reference to [cfg]: it reads the shared
    value of the state and has no copy of its own. *)
Definition InitializeTray (st : State) : App * State :=
  let window := {| handlers := [] |} in
  let tray := {| callbacks := []; refreshes := []; updates := [] |} in
  let st := if HideTray (cfg st) then TrayIcon_Hide st else st in

  let watcher := λ (file : string) (s : State),
    if bool_decide (file = EmptyString) || IgnoreCaseStringEquals E file (CONFIG_FILE E)
    then post_message WM_FILECHANGED s
    else s in

  let window := RegisterCallback WM_FILECHANGED (λ _ _ s,
    (SetConfig (LoadConfig (files s) (config_file E)) s, TRUE)) window in
  let window := RegisterCallback WM_CLOSE (λ _ _ s, save_and_exit s) window in
  let window := RegisterCallback WM_QUERYENDSESSION (λ _ lParam s,
    (if bool_decide (Z.land lParam ENDSESSION_CLOSEAPP ≠ 0%Z)
     then call Call_RegisterApplicationRestart s else s, TRUE)) window in
  let window := RegisterCallback WM_ENDSESSION (λ wParam _ s,
    (if bool_decide (wParam ≠ 0%Z)
     then SaveConfig (cfg s) (config_file E) false s else s, 0%Z)) window in

  let tray := BindBool tray ID_DESKTOP_ON_PEEK cfg_ref.UseRegularAppearanceWhenPeeking in
  let tray := BindAppearance tray cfg_ref.DesktopAppearance
                ID_DESKTOP_COLOR DESKTOP_BUTTOM_MAP in
  let tray := BindAppearance_optional tray cfg_ref.VisibleWindowAppearance
                ID_VISIBLE ID_VISIBLE_COLOR VISIBLE_BUTTOM_MAP in
  let tray := BindAppearance_optional tray cfg_ref.MaximisedWindowAppearance
                ID_MAXIMISED ID_MAXIMISED_COLOR MAXIMISED_BUTTON_MAP in
  let tray := BindAppearance_optional tray cfg_ref.StartOpenedAppearance
                ID_START ID_START_COLOR START_BUTTON_MAP in
  let tray := BindAppearance_optional tray cfg_ref.CortanaOpenedAppearance
                ID_CORTANA ID_CORTANA_COLOR CORTANA_BUTTON_MAP in
  let tray := BindAppearance_optional tray cfg_ref.TimelineOpenedAppearance
                ID_TIMELINE ID_TIMELINE_COLOR TIMELINE_BUTTON_MAP in

  let tray := BindByMap_ref tray PEEK_BUTTON_MAP cfg_ref.Peek in

  let tray := RegisterContextMenuCallback ID_OPENLOG (call Call_LogOpen) tray in
  let tray := BindByMap tray LOG_BUTTON_MAP Log_GetLevel (λ new_value s,
    assign_member cfg_ref.LogVerbosity new_value (Log_SetLevel new_value s)) in

  let tray := RegisterContextMenuCallback ID_EDITSETTINGS (λ s,
    call (Call_EditFile (config_file E))
         (SaveConfig (cfg s) (config_file E) false s)) tray in
  let tray := RegisterContextMenuCallback ID_RETURNTODEFAULTSETTINGS (λ s,
    (* Automatically reloaded by filesystem watcher. *)
    SaveConfig (DefaultConfig E) (config_file E) false s) tray in
  let tray := BindBool tray ID_DISABLESAVING cfg_ref.DisableSaving in
  let tray := RegisterContextMenuCallback ID_HIDETRAY (λ s,
    let s := call (Call_MessageBox hide_tray_text) s in
    if msgbox_yes s then
      let s := assign_member cfg_ref.HideTray true s in
      let s := TrayIcon_Hide s in
      SaveConfig (cfg s) (config_file E) false s
    else s) tray in
  let tray := RegisterContextMenuCallback ID_DUMPWORKER
                (call (Call_Worker DumpState)) tray in
  let tray := RegisterContextMenuCallback ID_RESETWORKER
                (call (Call_Worker ResetState)) tray in
  let tray := RegisterContextMenuCallback ID_ABOUT (call Call_AboutDialog) tray in
  let tray := RegisterContextMenuCallback ID_EXITWITHOUTSAVING (PostQuitMessage 0) tray in

  let tray :=
    if HasPackageIdentity E then
      RegisterContextMenuCallback ID_AUTOSTART (λ s,
        call (Call_SetStartupState
                (if bool_decide (autostart s = StartupEnabled)
                 then Disabled else StartupEnabled)) s) tray
    else Update (RemoveItem ID_AUTOSTART) tray in

  let tray := RegisterContextMenuCallback ID_TIPS
    (call (Call_OpenLink ("https://" +:+ APP_NAME E +:+ ".github.io/tips"))) tray in
  let tray := RegisterContextMenuCallback ID_EXIT (λ s, (save_and_exit s).1) tray in

  let tray := RegisterCustomRefresh RefreshMenu tray in
  ({| window := window; tray := tray; watcher := watcher |}, st).

(** One turn of [MessageWindow::RunMessageLoop]: the oldest posted message
    is taken from the queue and handed to the window procedure. *)
Definition pump (app : App) (st : State) : State :=
  match queue st with
  | [] => st
  | m :: q => (dispatch (window app) m (with_queue q st)).1
  end.

End Program.

(** ** The worker's resolver and applier *)

Module Core.

(** Modelled from the spec: the classification of section 4.1 of the
    specification ([taskbar/taskbarattributeworker.hpp] is missing);
    [NoWindow] is the specification's [None]. *)
Inductive Classification :=
| Desktop | StartMenu | SearchOrCortana | TimelineOrTaskView
| MaximisedApp | RegularApp | NoWindow.

Definition Monitor := N.

(** Modelled from the spec: what a [WindowStateSnapshot] records of one
    monitor, the classification of its foreground-relevant window and
    whether that window is maximized. *)
Record MonitorState := {
  classification : Classification;
  maximised : bool
}.

(** Modelled from the spec: the transient [WindowStateSnapshot] of
    section 3, with the per-monitor facts the rules of section 4.2 read. *)
Record WindowStateSnapshot := {
  PeekActive : bool;
  DesktopIsForeground : bool;
  MainMonitor : Monitor;
  Monitors : gmap Monitor MonitorState
}.

Definition classify (snapshot : WindowStateSnapshot) (monitor : Monitor)
    : Classification :=
  match Monitors snapshot !! monitor with
  | Some s => classification s
  | None => NoWindow
  end.

Definition is_maximised (snapshot : WindowStateSnapshot) (monitor : Monitor) : bool :=
  match Monitors snapshot !! monitor with
  | Some s => maximised s
  | None => false
  end.

(** Modelled from the spec: the [PeekBehavior] rules of step 1 of
    section 4.2. *)
Definition peek_qualifies (config : Config) (snapshot : WindowStateSnapshot) : bool :=
  match Peek config with
  | AlwaysShow => true
  | WindowMaximisedOnMainMonitor => is_maximised snapshot (MainMonitor snapshot)
  | WindowMaximisedOnAnyMonitor =>
      existsb (λ kv, maximised kv.2) (map_to_list (Monitors snapshot))
  | DesktopIsForegroundWindow => DesktopIsForeground snapshot
  | AlwaysHide => false
  end.

(** Modelled from the spec: step 2 of section 4.2, the optional appearance
    the classification selects.  The specification names no branch for
    [Desktop]; it falls under its "otherwise". *)
Definition selected (config : Config) (c : Classification) : OptionalTaskbarAppearance :=
  match c with
  | StartMenu => StartOpenedAppearance config
  | SearchOrCortana => CortanaOpenedAppearance config
  | TimelineOrTaskView => TimelineOpenedAppearance config
  | MaximisedApp => MaximisedWindowAppearance config
  | _ => VisibleWindowAppearance config
  end.

(** Modelled from the spec: [Resolve(config, snapshot, monitor)] of
    section 4.2, steps 1 to 3. *)
Definition Resolve (config : Config) (snapshot : WindowStateSnapshot)
    (monitor : Monitor) : TaskbarAppearance :=
  if PeekActive snapshot && peek_qualifies config snapshot
     && negb (UseRegularAppearanceWhenPeeking config)
  then DesktopAppearance config
  else
    let appearance := selected config (classify snapshot monitor) in
    if Enabled appearance then base appearance
    else DesktopAppearance config.

(** Modelled from the spec: the [TaskbarInstance] of section 3.  The cached
    appearance is absent before the first successful application and after
    [ResetState]. *)
Record TaskbarInstance := {
  monitor : Monitor;
  lastApplied : option TaskbarAppearance
}.

Section Applier.
(** The composition interface of the system: whether it accepts a request
    for a taskbar, and its state afterwards. *)
Context {OS : Type}.
Context (SetComposition : OS → Monitor → TaskbarAppearance → bool * OS).

Record World := {
  os : OS;
  os_calls : list (Monitor * TaskbarAppearance);
  log : list string
}.

(** Modelled from the spec: [Apply(taskbarInstance, appearance)] of
    section 4.3.  An appearance equal to the cached one makes no call; an
    accepted call updates the cache; a rejected one is logged and leaves
    the cache as it was, so that the next evaluation tries again. *)
Definition Apply (taskbarInstance : TaskbarInstance) (appearance : TaskbarAppearance)
    (w : World) : TaskbarInstance * World :=
  if decide (lastApplied taskbarInstance = Some appearance) then (taskbarInstance, w)
  else
    let '(accepted, os') := SetComposition (os w) (monitor taskbarInstance) appearance in
    let calls' := os_calls w ++ [(monitor taskbarInstance, appearance)] in
    if accepted then
      ({| monitor := monitor taskbarInstance; lastApplied := Some appearance |},
       {| os := os'; os_calls := calls'; log := log w |})
    else
      (taskbarInstance,
       {| os := os'; os_calls := calls';
          log := log w ++ ["composition call rejected"] |}).

(** The request [Apply] makes for this appearance is accepted. *)
Definition accepted (taskbarInstance : TaskbarInstance) (appearance : TaskbarAppearance)
    (w : World) : bool :=
  (SetComposition (os w) (monitor taskbarInstance) appearance).1.

(** Two applications in a row of the same appearance. *)
Definition Apply_twice (taskbarInstance : TaskbarInstance)
    (appearance : TaskbarAppearance) (w : World) : TaskbarInstance * World :=
  let '(i1, w1) := Apply taskbarInstance appearance w in
  Apply i1 appearance w1.

End Applier.

Arguments World : clear implicits.
Arguments os {OS} _.
Arguments os_calls {OS} _.
Arguments log {OS} _.

End Core.

(** ** A concrete environment and state

    Stand-ins for the missing headers, for running the program on explicit
    inputs: a configuration file of one word, numeric menu identifiers that
    grow with the order of declaration, and a system that protects what lies
    under its own folder. *)

Module Sample.

Definition appearance : TaskbarAppearance :=
  {| Accent := ACCENT_ENABLE_TRANSPARENTGRADIENT; Color := 0%N |}.
Definition optional : OptionalTaskbarAppearance :=
  {| Enabled := false; base := {| Accent := ACCENT_ENABLE_BLURBEHIND; Color := 255%N |} |}.

Definition config : Config := {|
  DesktopAppearance := appearance;
  VisibleWindowAppearance := optional;
  MaximisedWindowAppearance := optional;
  StartOpenedAppearance := {| Enabled := true; base := {| Accent := ACCENT_NORMAL; Color := 0%N |} |};
  CortanaOpenedAppearance := optional;
  TimelineOpenedAppearance := optional;
  Peek := WindowMaximisedOnMainMonitor;
  UseRegularAppearanceWhenPeeking := false;
  HideTray := false;
  DisableSaving := false;
  LogVerbosity := level_warn
|}.

Definition deserialize (cfg : Config) (text : string) : Config :=
  if bool_decide (text = "hide") then set_HideTray true cfg else cfg.
Definition serialize (cfg : Config) : string :=
  if HideTray cfg then "hide" else "show".

Definition menu_ids : list MenuId :=
  [ ID_DESKTOP_NORMAL; ID_DESKTOP_CLEAR; ID_DESKTOP_OPAQUE; ID_DESKTOP_BLUR; ID_DESKTOP_ACRYLIC;
    ID_VISIBLE_NORMAL; ID_VISIBLE_CLEAR; ID_VISIBLE_OPAQUE; ID_VISIBLE_BLUR; ID_VISIBLE_ACRYLIC;
    ID_MAXIMISED_NORMAL; ID_MAXIMISED_CLEAR; ID_MAXIMISED_OPAQUE; ID_MAXIMISED_BLUR;
    ID_MAXIMISED_ACRYLIC;
    ID_START_NORMAL; ID_START_CLEAR; ID_START_OPAQUE; ID_START_BLUR; ID_START_ACRYLIC;
    ID_CORTANA_NORMAL; ID_CORTANA_CLEAR; ID_CORTANA_OPAQUE; ID_CORTANA_BLUR; ID_CORTANA_ACRYLIC;
    ID_TIMELINE_NORMAL; ID_TIMELINE_CLEAR; ID_TIMELINE_OPAQUE; ID_TIMELINE_BLUR;
    ID_TIMELINE_ACRYLIC;
    ID_PEEK_SHOW; ID_PEEK_DYNAMIC_MAIN_MONITOR; ID_PEEK_DYNAMIC_ANY_MONITOR;
    ID_PEEK_DYNAMIC_FOREGROUND_DESKTOP; ID_PEEK_HIDE;
    ID_LOG_DEBUG; ID_LOG_INFO; ID_LOG_WARN; ID_LOG_ERR; ID_LOG_OFF;
    ID_DESKTOP_COLOR; ID_VISIBLE_COLOR; ID_MAXIMISED_COLOR; ID_START_COLOR;
    ID_CORTANA_COLOR; ID_TIMELINE_COLOR;
    ID_DESKTOP_ON_PEEK; ID_VISIBLE; ID_MAXIMISED; ID_START; ID_CORTANA; ID_TIMELINE;
    ID_AUTOSTART; ID_OPENLOG; ID_LOG; ID_EDITSETTINGS; ID_RETURNTODEFAULTSETTINGS;
    ID_DISABLESAVING; ID_HIDETRAY; ID_DUMPWORKER; ID_RESETWORKER; ID_ABOUT;
    ID_EXITWITHOUTSAVING; ID_TIPS; ID_EXIT ].

Fixpoint position (id : MenuId) (l : list MenuId) : N :=
  match l with
  | [] => 0
  | i :: l' => if decide (i = id) then 0 else N.succ (position id l')
  end.

Definition menu_value (id : MenuId) : N := (40000 + position id menu_ids)%N.

Definition env : Env := {|
  APP_NAME := "TranslucentTB";
  CONFIG_FILE := "config.json";
  HasPackageIdentity := false;
  IgnoreCaseStringEquals := String.eqb;
  DefaultConfig := config;
  Deserialize := deserialize;
  Serialize := serialize;
  id_value := menu_value;
  config_folder := "C:/TranslucentTB";
  config_file := "C:/TranslucentTB/config.json";
  may_write := λ p, negb (String.prefix "C:/Windows" p)
|}.

Definition state : State := {|
  cfg := config;
  cfg_stores := [];
  files := {[ "C:/TranslucentTB" := Directory ]};
  queue := [];
  tray_shown := true;
  log_level := level_warn;
  log_init := NotInitialized;
  autostart := Disabled;
  msgbox_yes := true;
  quit := None;
  calls := []
|}.

Definition app : App := (InitializeTray env state).1.

(** A composition interface that rejects every request. *)
Definition rejecting (os : unit) (m : Core.Monitor) (a : TaskbarAppearance) : bool * unit :=
  (false, os).
(** One that accepts every request. *)
Definition accepting (os : unit) (m : Core.Monitor) (a : TaskbarAppearance) : bool * unit :=
  (true, os).

Definition instance : Core.TaskbarInstance :=
  {| Core.monitor := 1%N; Core.lastApplied := None |}.
Definition world : Core.World unit :=
  {| Core.os := tt; Core.os_calls := []; Core.log := [] |}.

Definition snapshot : Core.WindowStateSnapshot := {|
  Core.PeekActive := false;
  Core.DesktopIsForeground := false;
  Core.MainMonitor := 1%N;
  Core.Monitors := {[ 1%N := {| Core.classification := Core.RegularApp;
                                Core.maximised := false |} ]}
|}.

End Sample.

(** ** Vocabulary of the statements *)

(** The stores into the shared configuration made between [st] and [st']. *)
Definition stores_since (st st' : State) (l : list Store) : Prop :=
  cfg_stores st' = cfg_stores st ++ l.

(** Between [st] and [st'] the configuration was only ever assigned whole. *)
Definition whole_value_only (st st' : State) : Prop :=
  ∃ n, stores_since st st' (replicate n StoreWhole).


Definition five_accent_states : gset ACCENT_STATE :=
  {[ ACCENT_NORMAL; ACCENT_ENABLE_TRANSPARENTGRADIENT; ACCENT_ENABLE_GRADIENT;
     ACCENT_ENABLE_BLURBEHIND; ACCENT_ENABLE_ACRYLICBLURBEHIND ]}.

(** The arguments of the seven calls of [BindBool] in the program. *)
Definition bool_items : list (MenuId * Ref bool) :=
  [ (ID_DESKTOP_ON_PEEK, cfg_ref.UseRegularAppearanceWhenPeeking);
    (ID_VISIBLE, ref_Enabled cfg_ref.VisibleWindowAppearance);
    (ID_MAXIMISED, ref_Enabled cfg_ref.MaximisedWindowAppearance);
    (ID_START, ref_Enabled cfg_ref.StartOpenedAppearance);
    (ID_CORTANA, ref_Enabled cfg_ref.CortanaOpenedAppearance);
    (ID_TIMELINE, ref_Enabled cfg_ref.TimelineOpenedAppearance);
    (ID_DISABLESAVING, cfg_ref.DisableSaving) ].

(** The appearances bound through [BindAppearance], each with its colour
    item and its map. *)
Definition appearance_items
    : list (Ref TaskbarAppearance * MenuId * gmap ACCENT_STATE MenuId) :=
  [ (cfg_ref.DesktopAppearance, ID_DESKTOP_COLOR, DESKTOP_BUTTOM_MAP);
    (ref_base cfg_ref.VisibleWindowAppearance, ID_VISIBLE_COLOR, VISIBLE_BUTTOM_MAP);
    (ref_base cfg_ref.MaximisedWindowAppearance, ID_MAXIMISED_COLOR, MAXIMISED_BUTTON_MAP);
    (ref_base cfg_ref.StartOpenedAppearance, ID_START_COLOR, START_BUTTON_MAP);
    (ref_base cfg_ref.CortanaOpenedAppearance, ID_CORTANA_COLOR, CORTANA_BUTTON_MAP);
    (ref_base cfg_ref.TimelineOpenedAppearance, ID_TIMELINE_COLOR, TIMELINE_BUTTON_MAP) ].

(** ** The running program, the refresh handlers and the start-up code *)

Definition with_msgbox_yes (b : bool) (st : State) : State :=
  Build_State (cfg st) (cfg_stores st) (files st) (queue st) (tray_shown st) (log_level st)
    (log_init st) (autostart st) b (quit st) (calls st).

(** What happens to the program while its message loop runs: a menu item is
    activated, the folder change reader reports a file, the loop takes the
    next posted message, a message is sent to the window directly
    ([WM_CLOSE] by a new instance, the end-of-session messages by the
    system), another program changes the files, the user makes up their mind
    about the next message box. *)
Inductive Event :=
| Ev_menu (id : MenuId)
| Ev_folder_change (file : string)
| Ev_pump
| Ev_send (m : Message)
| Ev_files (fs : gmap string Node)
| Ev_answer (yes : bool).

Definition handle_event (app : App) (ev : Event) (st : State) : State :=
  match ev with
  | Ev_menu id => activate (tray app) id st
  | Ev_folder_change file => watcher app file st
  | Ev_pump => pump app st
  | Ev_send m => (dispatch (window app) m st).1
  | Ev_files fs => with_files fs st
  | Ev_answer yes => with_msgbox_yes yes st
  end.

Definition run_events (app : App) (events : list Event) (st : State) : State :=
  foldl (λ s ev, handle_event app ev s) st events.

(** The tray icon is shown exactly when the configuration does not hide it. *)
Definition tray_follows_config (st : State) : Prop :=
  tray_shown st = negb (HideTray (cfg st)).

(** The logger runs at the verbosity the configuration names. *)
Definition log_follows_config (st : State) : Prop :=
  log_level st = LogVerbosity (cfg st).

(** The refresh handler [BindBool] registers, and the one of
    [BindBoolToEnabled]. *)
Definition check_refresh (item : MenuId) (value : Ref bool)
    : State → option (list UpdaterOp) :=
  λ st, Some [CheckItem item (ref_get value (cfg st))].
Definition enable_refresh (item : MenuId) (value : Ref bool)
    : State → option (list UpdaterOp) :=
  λ st, Some [EnableItem item (ref_get value (cfg st))].

(** [IsSingleInstance]: [named] are the named mutexes that exist in the
    system, [mutex] tells whether the function's static handle is set.
    [try_open] succeeds when the name exists and then sets the handle, as
    [create] does. *)
Definition IsSingleInstance (MUTEX_GUID : string) (named : gset string) (mutex : bool)
    : bool * gset string * bool :=
  if negb mutex then
    let opened := bool_decide (MUTEX_GUID ∈ named) in
    let named := if negb opened then {[ MUTEX_GUID ]} ∪ named else named in
    (negb opened, named, true)
  else (true, named, mutex).


Section Startup.
Context (E : Env).

(** The refresh handler [BindByMap] registers for a map: none for an empty
    one. *)
Definition radio_refresh {T} `{Countable T} (map : gmap T MenuId) (getter : State → T)
    : list (State → option (list UpdaterOp)) :=
  match minmax_element (map_value_compare E) (map_to_list map) with
  | Some (min_p, max_p) =>
      [ λ st, item ← map !! getter st; Some [CheckRadio min_p.2 max_p.2 item] ]
  | None => []
  end.

(** The refresh handlers of one optional appearance, in the order
    [BindAppearance] registers them. *)
Definition appearance_refreshes (appearance : Ref OptionalTaskbarAppearance)
    (enableId : MenuId) (map : gmap ACCENT_STATE MenuId)
    : list (State → option (list UpdaterOp)) :=
  [ check_refresh enableId (ref_Enabled appearance) ]
  ++ radio_refresh map (λ st, ref_get (ref_Accent (ref_base appearance)) (cfg st))
  ++ ((λ kv, enable_refresh kv.2 (ref_Enabled appearance)) <$> map_to_list map).

(** The refresh handlers of the whole menu. *)
Definition menu_refreshes : list (State → option (list UpdaterOp)) :=
  [ check_refresh ID_DESKTOP_ON_PEEK cfg_ref.UseRegularAppearanceWhenPeeking ]
  ++ radio_refresh DESKTOP_BUTTOM_MAP
       (λ st, ref_get (ref_Accent cfg_ref.DesktopAppearance) (cfg st))
  ++ appearance_refreshes cfg_ref.VisibleWindowAppearance ID_VISIBLE VISIBLE_BUTTOM_MAP
  ++ appearance_refreshes cfg_ref.MaximisedWindowAppearance ID_MAXIMISED MAXIMISED_BUTTON_MAP
  ++ appearance_refreshes cfg_ref.StartOpenedAppearance ID_START START_BUTTON_MAP
  ++ appearance_refreshes cfg_ref.CortanaOpenedAppearance ID_CORTANA CORTANA_BUTTON_MAP
  ++ appearance_refreshes cfg_ref.TimelineOpenedAppearance ID_TIMELINE TIMELINE_BUTTON_MAP
  ++ radio_refresh PEEK_BUTTON_MAP (λ st, ref_get cfg_ref.Peek (cfg st))
  ++ radio_refresh LOG_BUTTON_MAP Log_GetLevel
  ++ [ check_refresh ID_DISABLESAVING cfg_ref.DisableSaving; RefreshMenu E ].

(** [CheckAndRunWelcome].  [accepted] is what [WelcomeDialog::Run] returns
    should the dialog be shown, [old_folder] is [run.config_folder / APP_NAME].
    [None] is a [filesystem_error] thrown by [remove] or [remove_all], which
    nothing here catches. *)
Definition CheckAndRunWelcome (old_folder : string) (accepted : bool) (st : State)
    : option (bool * State) :=
  (* Remove old version config once prompt is accepted. *)
  let remove_old (st : State) :=
    fs ← remove_all E old_folder (files st);
    Some (true, with_files fs st) in
  if negb (is_regular_file (files st) (config_file E)) then
    let st := SaveConfig E (DefaultConfig E) (config_file E) false st in
    if negb accepted
    then '(_, fs) ← remove E (config_file E) (files st);
         Some (false, with_files fs st)
    else remove_old st
  else remove_old st.

(** The part of [wWinMain] from "Parse our configuration" to "Initialize
    GUI": the static [cfg] is initialized from the file, the logger is set to
    its verbosity, the tray is built. *)
Definition startup (st : State) : App * State :=
  let cfg := LoadConfig E (files st) (config_file E) in
  let st := with_cfg cfg (cfg_stores st) st in
  let st := Log_SetLevel (LogVerbosity cfg) st in
  InitializeTray E st.



End Startup.

(** The colours of a configuration. *)
Definition colours (c : Config) : list COLORREF :=
  [ Color (DesktopAppearance c);
    Color (base (VisibleWindowAppearance c));
    Color (base (MaximisedWindowAppearance c));
    Color (base (StartOpenedAppearance c));
    Color (base (CortanaOpenedAppearance c));
    Color (base (TimelineOpenedAppearance c)) ].

(** A run of the sample program: the tray is hidden from the menu, the
    configuration file is then replaced from outside, the change is
    reported and handled, and the program is left from the menu. *)
Module Scenario.

Definition events : list Event :=
  [ Ev_answer true;
    Ev_menu ID_HIDETRAY;
    Ev_files {[ "C:/TranslucentTB" := Directory;
                "C:/TranslucentTB/config.json" := RegularFile "show" ]};
    Ev_folder_change "config.json";
    Ev_pump;
    Ev_menu ID_EXIT ].

Definition saving_disabled : State :=
  with_cfg (set_DisableSaving true Sample.config) [] Sample.state.

(** The configuration file holds the word that hides the tray icon. *)
Definition hidden_in_file : State :=
  with_files {[ "C:/TranslucentTB" := Directory;
                "C:/TranslucentTB/config.json" := RegularFile "hide" ]} Sample.state.

(** A directory that is not empty stands where the configuration file
    should be. *)
Definition directory_in_the_way : State :=
  with_files {[ "C:/TranslucentTB" := Directory;
                "C:/TranslucentTB/config.json" := Directory;
                "C:/TranslucentTB/config.json/notes.txt" := RegularFile "notes" ]}
             Sample.state.

(** The program's folder is gone. *)
Definition folder_missing : State := with_files ∅ Sample.state.

Definition MUTEX_GUID : string := "344635E9-9AE4-4E60-B128-D53E25AB70A7".
Definition old_folder : string := "C:/TranslucentTB/TranslucentTB".

End Scenario.

(** Runs the menu built by [InitializeTray] on a symbolic state, in both
    cases of [HasPackageIdentity]. *)
Ltac run_menu :=
  match goal with
  | E : Env |- _ => destruct E as [? ? [] ? ? ? ? ? ? ? ?]
  end; reflexivity.

(** * Properties *)

(** ** Loading and saving *)

Section Configuration.
Context (E : Env).

Lemma is_regular_file_lookup fs file :
  is_regular_file fs file = true ↔ ∃ text, fs !! file = Some (RegularFile text).
Proof.
  unfold is_regular_file. destruct (fs !! file) as [[text| |]|]; split;
    try discriminate; eauto; intros [? ?]; discriminate.
Qed.

Lemma LoadConfig_regular fs file text :
  fs !! file = Some (RegularFile text) →
  LoadConfig E fs file = Deserialize E (DefaultConfig E) text.
Proof. intros H. unfold LoadConfig, is_regular_file, read_file. by rewrite H. Qed.

Lemma LoadConfig_not_regular fs file :
  is_regular_file fs file = false → LoadConfig E fs file = DefaultConfig E.
Proof. intros H. unfold LoadConfig. by rewrite H. Qed.

(** C10: for a path that is not a regular file, be it absent, a directory or
    another kind of entry, [LoadConfig] returns the default-constructed
    configuration. *)
Theorem LoadConfig_not_regular_file fs file :
  (is_regular_file fs file = false → LoadConfig E fs file = DefaultConfig E)
  ∧ (fs !! file = None → LoadConfig E fs file = DefaultConfig E)
  ∧ (fs !! file = Some Directory → LoadConfig E fs file = DefaultConfig E)
  ∧ (fs !! file = Some OtherNode → LoadConfig E fs file = DefaultConfig E).
Proof.
  split; [apply LoadConfig_not_regular|].
  repeat split; intros H; apply LoadConfig_not_regular;
    unfold is_regular_file; by rewrite H.
Qed.

Lemma SaveConfig_unfold c file o st :
  SaveConfig E c file o st
  = if (o || negb (DisableSaving c)) && opens_for_writing E (files st) file
    then call (Call_WriteFile file)
           (with_files (write_file (files st) file (saved_text E c)) st)
    else st.
Proof.
  unfold SaveConfig.
  by destruct (o || negb (DisableSaving c)), (opens_for_writing E (files st) file).
Qed.

(** [SaveConfig] changes the files and the record of calls only. *)
Lemma SaveConfig_frame c file o st :
  let st' := SaveConfig E c file o st in
  cfg st' = cfg st ∧ cfg_stores st' = cfg_stores st ∧ queue st' = queue st
  ∧ tray_shown st' = tray_shown st ∧ log_level st' = log_level st
  ∧ msgbox_yes st' = msgbox_yes st ∧ quit st' = quit st.
Proof. cbn zeta. rewrite SaveConfig_unfold. by destruct (_ && _). Qed.


(** A stream on a directory, or for a new file in a folder that is not
    there, or where the system refuses, does not open. *)
Lemma opens_for_writing_false fs file :
  opens_for_writing E fs file = false
  ↔ fs !! file = Some Directory
    ∨ (fs !! file = None ∧ fs !! parent_path file ≠ Some Directory)
    ∨ may_write E file = false.
Proof.
  unfold opens_for_writing, is_directory.
  destruct (fs !! file) as [[text| |]|]; cbn.
  - split; [by auto|]. by intros [?|[[? _]|?]].
  - split; [by auto|]. done.
  - split; [by auto|]. by intros [?|[[? _]|?]].
  - destruct (fs !! parent_path file) as [[t| |]|] eqn:Hp; cbn.
    + split; [intros _; right; left; done | done].
    + split; [intros H; by right; right | intros [?|[[_ ?]|?]]; done].
    + split; [intros _; right; left; done | done].
    + split; [intros _; right; left; done | done].
Qed.

Lemma opens_for_writing_true fs file :
  opens_for_writing E fs file = true →
  fs !! file ≠ Some Directory ∧ may_write E file = true.
Proof.
  intros Ho. split.
  - intros Hd. assert (opens_for_writing E fs file = false); [|congruence].
    apply opens_for_writing_false. by left.
  - destruct (may_write E file) eqn:Hw; [done|].
    assert (opens_for_writing E fs file = false); [|congruence].
    apply opens_for_writing_false. by right; right.
Qed.

Lemma write_file_insert fs file text :
  fs !! file ≠ Some OtherNode → write_file fs file text = <[file := RegularFile text]> fs.
Proof. intros H. unfold write_file. by destruct (fs !! file) as [[| |]|]. Qed.

Lemma lookup_write_file fs file text p :
  write_file fs file text !! p
  = if decide (p = file)
    then (if decide (fs !! file = Some OtherNode) then Some OtherNode
          else Some (RegularFile text))
    else fs !! p.
Proof.
  unfold write_file. destruct (decide (p = file)) as [->|Hp].
  - destruct (fs !! file) as [[t| |]|] eqn:Hf.
    + by rewrite lookup_insert_eq, decide_False.
    + by rewrite lookup_insert_eq, decide_False.
    + by rewrite Hf, decide_True.
    + by rewrite lookup_insert_eq, decide_False.
  - destruct (fs !! file) as [[t| |]|]; by rewrite ?lookup_insert_ne.
Qed.

(** C9, as amended: [SaveConfig] writes exactly when [override] is set or
    [cfg.DisableSaving] is clear and, besides, the output stream opens; the
    file then holds the comment line and the serialized configuration, and
    no other path changes.  When the stream does not open (on a directory,
    for a new file in a folder that is not there, or where the system
    refuses) nothing at all changes, and no more when saving is disabled and
    not overridden. *)
Theorem SaveConfig_guard (c : Config) (file : string) (override : bool) (st : State) :
  let st' := SaveConfig E c file override st in
  let opens := opens_for_writing E (files st) file in
  (calls st' = calls st ++ [Call_WriteFile file]
     ↔ (override = true ∨ DisableSaving c = false) ∧ opens = true)
  ∧ (st' ≠ st ↔ (override = true ∨ DisableSaving c = false) ∧ opens = true)
  ∧ ((override = true ∨ DisableSaving c = false) → opens = true →
       files st' = write_file (files st) file (saved_text E c)
       ∧ (files st !! file ≠ Some OtherNode →
            files st' !! file = Some (RegularFile (saved_text E c)))
       ∧ ∀ p, p ≠ file → files st' !! p = files st !! p)
  ∧ (opens = false → st' = st)
  ∧ (opens = false
     ↔ files st !! file = Some Directory
       ∨ (files st !! file = None ∧ files st !! parent_path file ≠ Some Directory)
       ∨ may_write E file = false)
  ∧ (DisableSaving c = true → override = false → st' = st).
Proof.
  intros st' opens. subst st' opens.
  assert (Hne : ∀ x : Call, calls st ≠ calls st ++ [x]).
  { intros x H. apply (f_equal length) in H. rewrite length_app in H. simpl in H. lia. }
  assert (Hst : ∀ s, calls s = calls st ++ [Call_WriteFile file] → s ≠ st).
  { intros s Hs ->. by apply Hne in Hs. }
  assert (Hg : override || negb (DisableSaving c) = true
               ↔ override = true ∨ DisableSaving c = false).
  { destruct override, (DisableSaving c); cbn; intuition discriminate. }
  rewrite SaveConfig_unfold.
  split; [|split; [|split; [|split; [|split; [apply opens_for_writing_false|]]]]].
  - destruct (override || negb (DisableSaving c)) eqn:Hgb,
             (opens_for_writing E (files st) file) eqn:Ho; cbn [andb].
    + split; [intros _; split; [by apply Hg | done] | done].
    + split; [by intros H%Hne | intros [_ ?]; done].
    + split; [by intros H%Hne | intros [H%Hg _]; done].
    + split; [by intros H%Hne | intros [H%Hg _]; done].
  - destruct (override || negb (DisableSaving c)) eqn:Hgb,
             (opens_for_writing E (files st) file) eqn:Ho; cbn [andb].
    + split; [intros _; split; [by apply Hg | done] | intros _; by apply Hst].
    + split; [done | intros [_ ?]; done].
    + split; [done | intros [H%Hg _]; done].
    + split; [done | intros [H%Hg _]; done].
  - intros Hguard%Hg Ho. rewrite Hguard, Ho. cbn [andb files call with_calls with_files].
    split; [reflexivity|]. split.
    + intros Hother. rewrite lookup_write_file, decide_True by done.
      by rewrite decide_False.
    + intros p Hp. rewrite lookup_write_file. by rewrite decide_False.
  - intros ->. by rewrite andb_false_r.
  - intros Hd Ho. by rewrite Hd, Ho.
Qed.

End Configuration.

(** C10, on a configuration file that was deleted. *)
Lemma LoadConfig_deleted_file :
  files Sample.state !! config_file Sample.env = None
  ∧ LoadConfig Sample.env (files Sample.state) (config_file Sample.env)
    = DefaultConfig Sample.env.
Proof.
  split; [reflexivity|].
  apply (proj1 (LoadConfig_not_regular_file Sample.env (files Sample.state)
                  (config_file Sample.env))).
  reflexivity.
Defined.

(** Saving disabled, but overridden: the file is written. *)
Example SaveConfig_override_sample :
  let c := set_DisableSaving true Sample.config in
  let st' := SaveConfig Sample.env c (config_file Sample.env) true Sample.state in
  files st' !! config_file Sample.env
  = Some (RegularFile ("// For reference on this format, see TODO" +:+ endl +:+ "show"))
  ∧ calls st' = [Call_WriteFile (config_file Sample.env)].
Proof. split; reflexivity. Qed.

(** C9, as stated, fails: with [override] set, on a path that names a
    directory the stream does not open and nothing is written. *)
Lemma SaveConfig_unopened_stream :
  let file := config_folder Sample.env in
  let st' := SaveConfig Sample.env Sample.config file true Sample.state in
  files Sample.state !! file = Some Directory
  ∧ st' = Sample.state
  ∧ files st' !! file = Some Directory
  ∧ ¬ (calls st' = calls Sample.state ++ [Call_WriteFile file]
       ↔ true = true ∨ DisableSaving Sample.config = false).
Proof.
  repeat split; try reflexivity.
  intros [_ H]. specialize (H (or_introl eq_refl)). discriminate H.
Qed.

(** In a folder that is not there nothing is written either. *)
Example SaveConfig_folder_missing :
  SaveConfig Sample.env Sample.config (config_file Sample.env) true Scenario.folder_missing
  = Scenario.folder_missing.
Proof. reflexivity. Qed.

(** C9, with saving disabled and no override. *)
Lemma SaveConfig_disabled_sample :
  let c := set_DisableSaving true Sample.config in
  let st' := SaveConfig Sample.env c (config_file Sample.env) false Sample.state in
  st' = Sample.state ∧ files st' !! config_file Sample.env = None.
Proof.
  split.
  - destruct (SaveConfig_guard Sample.env (set_DisableSaving true Sample.config)
                (config_file Sample.env) false Sample.state) as (_ & _ & _ & _ & _ & H).
    apply H; reflexivity.
  - reflexivity.
Defined.

(** ** The folder watcher and the message loop *)

Section MessageLoop.
Context (E : Env).

(** The callbacks [InitializeTray] registers on the tray window. *)
Lemma InitializeTray_handlers st0 :
  handlers (window (InitializeTray E st0).1) =
  [ (WM_FILECHANGED, λ _ _ s, (SetConfig (LoadConfig E (files s) (config_file E)) s, TRUE));
    (WM_CLOSE, λ _ _ s, save_and_exit E s);
    (WM_QUERYENDSESSION, λ _ lParam s,
       (if bool_decide (Z.land lParam ENDSESSION_CLOSEAPP ≠ 0%Z)
        then call Call_RegisterApplicationRestart s else s, TRUE));
    (WM_ENDSESSION, λ wParam _ s,
       (if bool_decide (wParam ≠ 0%Z)
        then SaveConfig E (cfg s) (config_file E) false s else s, 0%Z)) ].
Proof. reflexivity. Qed.

Lemma InitializeTray_watcher st0 file s :
  watcher (InitializeTray E st0).1 file s =
  if bool_decide (file = EmptyString) || IgnoreCaseStringEquals E file (CONFIG_FILE E)
  then post_message WM_FILECHANGED s else s.
Proof. reflexivity. Qed.

Lemma dispatch_FILECHANGED st0 wp lp st :
  dispatch (window (InitializeTray E st0).1)
           {| msg := WM_FILECHANGED; wParam := wp; lParam := lp |} st
  = (SetConfig (LoadConfig E (files st) (config_file E)) st, TRUE).
Proof. unfold dispatch. rewrite InitializeTray_handlers. reflexivity. Qed.

Lemma SetConfig_cfg c st : cfg (SetConfig c st) = c.
Proof. reflexivity. Qed.

(** [SetConfig] touches the configuration, the tray icon and the logger,
    and nothing else. *)
Lemma SetConfig_frame c st :
  cfg_stores (SetConfig c st) = cfg_stores st ++ [StoreWhole]
  ∧ files (SetConfig c st) = files st ∧ queue (SetConfig c st) = queue st
  ∧ quit (SetConfig c st) = quit st ∧ calls (SetConfig c st) = calls st.
Proof.
  unfold SetConfig.
  destruct (bool_decide (HideTray (cfg st) ≠ HideTray c)), (HideTray c);
    simpl; destruct (bool_decide _); done.
Qed.

Lemma SetConfig_stores c st : cfg_stores (SetConfig c st) = cfg_stores st ++ [StoreWhole].
Proof. apply SetConfig_frame. Qed.

Lemma SetConfig_files c st : files (SetConfig c st) = files st.
Proof. apply SetConfig_frame. Qed.

Lemma SetConfig_queue c st : queue (SetConfig c st) = queue st.
Proof. apply SetConfig_frame. Qed.

Lemma SetConfig_quit c st : quit (SetConfig c st) = quit st.
Proof. apply SetConfig_frame. Qed.

Lemma SetConfig_calls c st : calls (SetConfig c st) = calls st.
Proof. apply SetConfig_frame. Qed.

Lemma pump_FILECHANGED st0 wp lp q st :
  queue st = {| msg := WM_FILECHANGED; wParam := wp; lParam := lp |} :: q →
  pump (InitializeTray E st0).1 st
  = SetConfig (LoadConfig E (files st) (config_file E)) (with_queue q st).
Proof. intros Hq. unfold pump. rewrite Hq, dispatch_FILECHANGED. reflexivity. Qed.

(** No callback of the tray window posts a message, and the only code a
    callback hands to [PostQuitMessage] is 0. *)
Lemma dispatch_queue_quit st0 m st :
  let st' := (dispatch (window (InitializeTray E st0).1) m st).1 in
  queue st' = queue st ∧ (quit st' = quit st ∨ quit st' = Some 0%Z).
Proof.
  unfold dispatch. rewrite InitializeTray_handlers.
  pose proof (SaveConfig_frame E (cfg st) (config_file E) false st)
    as (_ & _ & Hq & _ & _ & _ & Hx).
  destruct m as [[] wp lp]; cbn [msg wParam lParam]; simpl list_find; cbn beta iota zeta.
  - cbn [fst]. rewrite SetConfig_queue, SetConfig_quit. auto.
  - unfold save_and_exit, PostQuitMessage. cbn [fst with_quit queue quit]. auto.
  - cbn [fst]. destruct (bool_decide _); auto.
  - cbn [fst]. destruct (bool_decide _); auto.
  - auto.
Qed.

Lemma pump_queue st0 st :
  queue (pump (InitializeTray E st0).1 st) = tail (queue st).
Proof.
  unfold pump. destruct (queue st) as [|m q] eqn:Hq; [by rewrite Hq|].
  by destruct (dispatch_queue_quit st0 m (with_queue q st)) as [-> _].
Qed.

Lemma run_events_cons app ev events st :
  run_events app (ev :: events) st = run_events app events (handle_event app ev st).
Proof. reflexivity. Qed.

Lemma run_events_app app events events' st :
  run_events app (events ++ events') st = run_events app events' (run_events app events st).
Proof. apply foldl_app. Qed.

(** [n] turns of the loop take the [n] oldest messages off the queue. *)
Lemma pumps_queue st0 n st :
  queue (run_events (InitializeTray E st0).1 (replicate n Ev_pump) st) = drop n (queue st).
Proof.
  revert st. induction n as [|n IH]; intros st; [done|].
  cbn [replicate]. rewrite run_events_cons. cbn [handle_event].
  rewrite IH, pump_queue. destruct (queue st); cbn; [by rewrite drop_nil | done].
Qed.

(** C4: handling [WM_FILECHANGED] loads a configuration from the
    configuration file as it is at that moment and assigns it, whole, over
    the shared configuration, whatever that was: the one deserialized from
    the text of the file, or the default one when there is no such file,
    and the same for every configuration held before.
    The handler is [SetConfig] on the result of [LoadConfig]; it writes no
    file, posts no message and makes no call. *)
Theorem FILECHANGED_loads_and_replaces st0 wp lp st :
  let app := (InitializeTray E st0).1 in
  let m := {| msg := WM_FILECHANGED; wParam := wp; lParam := lp |} in
  let st' := (dispatch (window app) m st).1 in
  let fresh := LoadConfig E (files st) (config_file E) in
  st' = SetConfig fresh st
  ∧ cfg st' = fresh
  ∧ cfg_stores st' = cfg_stores st ++ [StoreWhole]
  ∧ (∀ q, cfg (pump app (with_queue (m :: q) st)) = fresh)
  ∧ (∀ text, files st !! config_file E = Some (RegularFile text) →
       cfg st' = Deserialize E (DefaultConfig E) text)
  ∧ (is_regular_file (files st) (config_file E) = false → cfg st' = DefaultConfig E)
  ∧ (∀ old stores, cfg (dispatch (window app) m (with_cfg old stores st)).1 = cfg st')
  ∧ files st' = files st ∧ queue st' = queue st ∧ calls st' = calls st.
Proof.
  intros app m st' fresh. subst app m st' fresh.
  rewrite dispatch_FILECHANGED. cbn [fst].
  split; [reflexivity|]. split; [apply SetConfig_cfg|].
  split; [apply SetConfig_stores|].
  split.
  { intros q. unfold pump. cbn [queue with_queue].
    rewrite dispatch_FILECHANGED. reflexivity. }
  split; [intros text Htext; rewrite SetConfig_cfg; by apply LoadConfig_regular|].
  split; [intros Hno; rewrite SetConfig_cfg; by apply LoadConfig_not_regular|].
  split; [intros old stores; by rewrite dispatch_FILECHANGED|].
  split; [apply SetConfig_files|]. split; [apply SetConfig_queue | apply SetConfig_calls].
Qed.

(** C6: the callback of the folder change reader changes nothing but the
    queue of the tray window, to which it appends the message
    [WM_FILECHANGED] when the report is about the configuration file or
    about the folder as a whole, and nothing otherwise.  It returns with
    that message pending: the handler has not run, and the configuration
    has been neither read (the callback does the same whatever it is) nor
    stored into.  The configuration is loaded and
    assigned when the message loop, having taken the messages that were
    there before, takes that message from the queue. *)
Theorem watcher_only_enqueues st0 file st :
  let app := (InitializeTray E st0).1 in
  let st' := watcher app file st in
  let m := {| msg := WM_FILECHANGED; wParam := 0; lParam := 0 |} in
  let reported :=
    bool_decide (file = EmptyString) || IgnoreCaseStringEquals E file (CONFIG_FILE E) in
  queue st' = queue st ++ (if reported then [m] else [])
  ∧ with_queue (queue st) st' = st
  ∧ cfg st' = cfg st ∧ cfg_stores st' = cfg_stores st ∧ files st' = files st
  ∧ tray_shown st' = tray_shown st ∧ log_level st' = log_level st
  ∧ calls st' = calls st ∧ quit st' = quit st
  ∧ (∀ c stores, watcher app file (with_cfg c stores st) = with_cfg c stores st')
  ∧ (∀ wp lp,
       cfg_stores (dispatch (window app)
                     {| msg := WM_FILECHANGED; wParam := wp; lParam := lp |} st).1
       ≠ cfg_stores st')
  ∧ (reported = true →
       let s := run_events app (replicate (length (queue st)) Ev_pump) st' in
       queue s = [m]
       ∧ pump app s = SetConfig (LoadConfig E (files s) (config_file E)) (with_queue [] s)
       ∧ cfg (pump app s) = LoadConfig E (files s) (config_file E)
       ∧ cfg_stores (pump app s) = cfg_stores s ++ [StoreWhole]
       ∧ queue (pump app s) = [])
  ∧ (reported = true → queue st = [] →
       cfg (pump app st') = LoadConfig E (files st) (config_file E)
       ∧ cfg_stores (pump app st') = cfg_stores st ++ [StoreWhole]
       ∧ ∀ text, files st !! config_file E = Some (RegularFile text) →
                 cfg (pump app st') = Deserialize E (DefaultConfig E) text).
Proof.
  intros app st' m reported. subst app st' reported.
  rewrite InitializeTray_watcher.
  assert (Hrun : ∀ wp lp,
    cfg_stores (dispatch (window (InitializeTray E st0).1)
                  {| msg := WM_FILECHANGED; wParam := wp; lParam := lp |} st).1
    ≠ cfg_stores st).
  { intros wp lp. rewrite dispatch_FILECHANGED. cbn [fst]. rewrite SetConfig_stores.
    intros H. apply (f_equal length) in H. rewrite length_app in H. simpl in H. lia. }
  destruct (bool_decide (file = EmptyString) || IgnoreCaseStringEquals E file (CONFIG_FILE E))
    eqn:Hr.
  - assert (Hq : queue (post_message WM_FILECHANGED st) = queue st ++ [m]) by reflexivity.
    split; [exact Hq|]. split; [by destruct st|]. do 7 (split; [reflexivity|]).
    split; [intros c stores; by rewrite InitializeTray_watcher, Hr|].
    split; [intros wp lp; exact (Hrun wp lp)|].
    split.
    + intros _. cbn zeta.
      set (s := run_events _ _ _).
      assert (Hqs : queue s = [m]).
      { unfold s. rewrite pumps_queue, Hq. apply drop_app_length. }
      split; [exact Hqs|].
      rewrite (pump_FILECHANGED st0 0 0 [] s Hqs).
      split; [reflexivity|]. split; [apply SetConfig_cfg|].
      rewrite SetConfig_stores, SetConfig_queue. done.
    + intros _ Hempty. rewrite Hempty in Hq.
      rewrite (pump_FILECHANGED st0 0 0 [] _ Hq).
      rewrite SetConfig_cfg, SetConfig_stores.
      cbn [files cfg_stores with_queue post_message].
      split; [reflexivity|]. split; [reflexivity|].
      intros text Htext. by apply LoadConfig_regular.
  - split; [by rewrite app_nil_r|]. split; [by destruct st|]. do 7 (split; [reflexivity|]).
    split; [intros c stores; by rewrite InitializeTray_watcher, Hr|].
    split; [exact Hrun|].
    split; intros; discriminate.
Qed.

(** A configuration file deleted while the program runs: the watcher
    reports the change, the loop takes the message, and the default
    configuration is back. *)
Lemma deleted_config_restores_defaults st0 st :
  let app := (InitializeTray E st0).1 in
  queue st = [] → files st !! config_file E = None →
  cfg (pump app (watcher app EmptyString st)) = DefaultConfig E.
Proof.
  intros app Hq Hf. subst app. rewrite InitializeTray_watcher.
  rewrite bool_decide_eq_true_2 by done. cbn [orb].
  unfold pump, post_message. cbn [queue with_queue]. rewrite Hq. cbn [app].
  rewrite dispatch_FILECHANGED. cbn [fst]. rewrite SetConfig_cfg.
  apply LoadConfig_not_regular. cbn [files with_queue].
  unfold is_regular_file. by rewrite Hf.
Qed.

End MessageLoop.

(** C4, on a configuration file that holds the word hiding the tray icon:
    the configuration then hides it, and the icon goes. *)
Lemma FILECHANGED_hidden_sample :
  let st' := (dispatch (window Sample.app)
                {| msg := WM_FILECHANGED; wParam := 0; lParam := 0 |}
                Scenario.hidden_in_file).1 in
  cfg st' = set_HideTray true Sample.config ∧ tray_shown st' = false.
Proof.
  destruct (FILECHANGED_loads_and_replaces Sample.env Sample.state 0 0
              Scenario.hidden_in_file) as (Hst & _ & _ & _ & Htext & _).
  split.
  - exact (Htext "hide" eq_refl).
  - unfold Sample.app. cbn zeta. rewrite Hst. reflexivity.
Defined.

(** C6, on the sample state: the report of the configuration file leaves
    one message pending, and the next turn of the loop loads the
    configuration. *)
Lemma watcher_only_enqueues_sample :
  let st' := watcher Sample.app "config.json" Sample.state in
  queue st' = [{| msg := WM_FILECHANGED; wParam := 0; lParam := 0 |}]
  ∧ cfg_stores st' = []
  ∧ cfg_stores (pump Sample.app st') = [StoreWhole].
Proof.
  destruct (watcher_only_enqueues Sample.env Sample.state "config.json" Sample.state)
    as (Hq & _ & _ & Hs & _ & _ & _ & _ & _ & _ & _ & _ & Hlater).
  split; [exact Hq|]. split; [exact Hs|].
  exact (proj1 (proj2 (Hlater eq_refl eq_refl))).
Defined.

(** ** The tray menu *)

(** C7: each of the six maps from accent states to menu identifiers has
    exactly the five accent states as its keys, and there is no sixth
    state. *)
Theorem accent_maps_key_set :
  Forall (λ m : gmap ACCENT_STATE MenuId, dom m = five_accent_states ∧ size m = 5)
         accent_maps
  ∧ size five_accent_states = 5
  ∧ ∀ a : ACCENT_STATE, a ∈ five_accent_states.
Proof.
  split; [|split].
  - unfold accent_maps. repeat constructor; by vm_compute.
  - by vm_compute.
  - intros []; unfold five_accent_states; set_solver.
Qed.

Section Tray.
Context (E : Env).

(** [BindColor] leaves the menu as it found it: for an identifier that no
    entry of the map carries, [BindAppearance] adds no callback. *)
Lemma BindByMap_callbacks_other {T} `{Countable T} t (map : gmap T MenuId) getter setter id :
  (∀ k, map !! k ≠ Some id) →
  filter (λ cb, cb.1 = id) (callbacks (BindByMap E t map getter setter))
  = filter (λ cb, cb.1 = id) (callbacks t).
Proof.
  intros Hid. unfold BindByMap.
  assert (Hl : ∀ kv, kv ∈ map_to_list map → kv.2 ≠ id).
  { intros [k v] Hkv%elem_of_map_to_list Hv. simpl in Hv. subst v. by apply (Hid k). }
  assert (Hfold : ∀ l t0, (∀ kv, kv ∈ l → kv.2 ≠ id) →
    filter (λ cb, cb.1 = id)
      (callbacks (foldl (λ tr '(new_value, i), RegisterContextMenuCallback i (setter new_value) tr) t0 l))
    = filter (λ cb, cb.1 = id) (callbacks t0)).
  { induction l as [|[k v] l IH]; intros t0 Hne; [reflexivity|].
    simpl. rewrite IH by (intros kv Hkv; apply Hne; by right).
    unfold RegisterContextMenuCallback; simpl. rewrite filter_app.
    rewrite (filter_cons_False (λ cb : MenuId * (State → State), cb.1 = id)).
    - rewrite filter_nil. apply app_nil_r.
    - simpl. apply (Hne (k, v)). by left. }
  specialize (Hfold _ t Hl).
  destruct (minmax_element _ _) as [[mn mx]|]; exact Hfold.
Qed.

Lemma BindAppearance_callbacks_colour t appearance colorId map :
  (∀ a, map !! a ≠ Some colorId) →
  filter (λ cb, cb.1 = colorId) (callbacks (BindAppearance E t appearance colorId map))
  = filter (λ cb, cb.1 = colorId) (callbacks t).
Proof. intros Hid. unfold BindAppearance, BindColor, BindByMap_ref. by apply BindByMap_callbacks_other. Qed.

(** C8: [BindColor] registers nothing, and activating the colour item of any
    appearance bound through [BindAppearance] leaves the whole state, and so
    the appearance's colour, as it was. *)
Theorem colour_items_inert st0 st :
  let tray := tray (InitializeTray E st0).1 in
  (∀ t id color, BindColor t id color = t)
  ∧ Forall (λ '(appearance, colorId, _),
        activate tray colorId st = st
        ∧ ref_get (ref_Color appearance) (cfg (activate tray colorId st))
          = ref_get (ref_Color appearance) (cfg st)) appearance_items.
Proof.
  intros tray0. subst tray0. split; [reflexivity|].
  destruct E as [an cf hp ic dc de se iv cfo cfi mw].
  unfold appearance_items.
  destruct hp; repeat constructor; vm_compute; reflexivity.
Qed.

(** No menu identifier is registered twice: at most one callback runs when
    an item is activated. *)
Lemma InitializeTray_callbacks_NoDup st0 :
  NoDup (map fst (callbacks (tray (InitializeTray E st0).1))).
Proof.
  apply (bool_decide_unpack _).
  destruct E as [? ? [] ? ? ? ? ? ? ? ?]; vm_compute; reflexivity.
Qed.

End Tray.

(** ** Stores into the shared configuration *)

Section Stores.
Context (E : Env).

Lemma SaveConfig_stores c file o st :
  cfg_stores (SaveConfig E c file o st) = cfg_stores st.
Proof. apply SaveConfig_frame. Qed.

Lemma SaveConfig_cfg c file o st : cfg (SaveConfig E c file o st) = cfg st.
Proof. apply SaveConfig_frame. Qed.

(** The items that save the configuration file. *)
Lemma activate_saving_items st0 st :
  let t := tray (InitializeTray E st0).1 in
  activate t ID_EDITSETTINGS st
    = call (Call_EditFile (config_file E)) (SaveConfig E (cfg st) (config_file E) false st)
  ∧ activate t ID_RETURNTODEFAULTSETTINGS st
    = SaveConfig E (DefaultConfig E) (config_file E) false st
  ∧ activate t ID_EXIT st
    = PostQuitMessage 0 (SaveConfig E (cfg st) (config_file E) false st)
  ∧ activate t ID_HIDETRAY st
    = (let s := call (Call_MessageBox (hide_tray_text E)) st in
       if msgbox_yes s then
         let s := TrayIcon_Hide (assign_member cfg_ref.HideTray true s) in
         SaveConfig E (cfg s) (config_file E) false s
       else s).
Proof. intros t. subst t. repeat split; run_menu. Qed.

(** A window message other than [WM_FILECHANGED] stores nothing. *)
Lemma dispatch_stores st0 m st :
  stores_since st (dispatch (window (InitializeTray E st0).1) m st).1
    (if decide (msg m = WM_FILECHANGED) then [StoreWhole] else []).
Proof.
  unfold stores_since, dispatch. rewrite InitializeTray_handlers.
  destruct m as [[] wp lp]; cbn [msg wParam lParam]; simpl.
  - apply SetConfig_stores.
  - rewrite SaveConfig_stores. by rewrite app_nil_r.
  - destruct (bool_decide _); simpl; by rewrite app_nil_r.
  - destruct (bool_decide _); simpl; rewrite ?SaveConfig_stores; by rewrite app_nil_r.
  - by rewrite app_nil_r.
Qed.

(** A window message other than [WM_FILECHANGED] leaves the configuration
    as it is. *)
Lemma dispatch_cfg st0 m st :
  msg m ≠ WM_FILECHANGED →
  cfg (dispatch (window (InitializeTray E st0).1) m st).1 = cfg st.
Proof.
  intros Hm. unfold dispatch. rewrite InitializeTray_handlers.
  pose proof (SaveConfig_cfg (cfg st) (config_file E) false st) as Hc.
  destruct m as [[] wp lp]; cbn [msg wParam lParam] in *; simpl list_find; cbn beta iota.
  - done.
  - unfold save_and_exit, PostQuitMessage. cbn [fst with_quit cfg]. by rewrite Hc.
  - cbn [fst]. by destruct (bool_decide _).
  - cbn [fst]. destruct (bool_decide _); [by rewrite Hc | done].
  - done.
Qed.

(** A menu item stores into at most one member of the configuration, and
    never assigns it whole. *)
Lemma activate_stores st0 id st :
  ∃ l, stores_since st (activate (tray (InitializeTray E st0).1) id st) l
       ∧ (l = [] ∨ ∃ path, l = [StoreMember path]).
Proof.
  unfold stores_since.
  destruct (activate_saving_items st0 st) as (Hedit & Hdefault & Hexit & Hhide).
  destruct id.
  all: try solve [exists []; split; [rewrite app_nil_r; run_menu | by left]].
  all: try solve [eexists [_]; split; [run_menu | right; eexists; reflexivity]].
  - exists []. split; [|by left]. rewrite Hedit. simpl.
    by rewrite SaveConfig_stores, app_nil_r.
  - exists []. split; [|by left]. rewrite Hdefault.
    by rewrite SaveConfig_stores, app_nil_r.
  - rewrite Hhide. simpl. destruct (msgbox_yes st).
    + exists [StoreMember "HideTray"]. split; [|right; by eexists].
      by rewrite SaveConfig_stores.
    + exists []. split; [by rewrite app_nil_r | by left].
  - exists []. split; [|by left]. rewrite Hexit. simpl.
    by rewrite SaveConfig_stores, app_nil_r.
Qed.

(** C1, as amended: a config-changed trigger assigns the shared
    configuration whole, once; every other window message and every watcher
    callback stores nothing into it and leaves it as it is; a menu item
    never assigns it whole but stores into at most one of its members, in
    place: the items bound by [BindBool] negate their member, those bound by
    [BindByMap] assign the accent state, the peek behaviour or the log
    verbosity of their entry. *)
Theorem config_stores_by_trigger st0 st :
  let app := (InitializeTray E st0).1 in
  (∀ wp lp,
     let st' := (dispatch (window app) {| msg := WM_FILECHANGED; wParam := wp; lParam := lp |} st).1 in
     stores_since st st' [StoreWhole]
     ∧ cfg st' = LoadConfig E (files st) (config_file E))
  ∧ (∀ m, stores_since st (dispatch (window app) m st).1
            (if decide (msg m = WM_FILECHANGED) then [StoreWhole] else []))
  ∧ (∀ m, msg m ≠ WM_FILECHANGED →
          cfg_stores (dispatch (window app) m st).1 = cfg_stores st
          ∧ cfg (dispatch (window app) m st).1 = cfg st)
  ∧ (∀ m, whole_value_only st (dispatch (window app) m st).1)
  ∧ (∀ file, stores_since st (watcher app file st) []
             ∧ cfg_stores (watcher app file st) = cfg_stores st
             ∧ cfg (watcher app file st) = cfg st)
  ∧ (∀ id, ∃ l, stores_since st (activate (tray app) id st) l
                ∧ (l = [] ∨ ∃ path, l = [StoreMember path]))
  ∧ Forall (λ '(item, value),
        activate (tray app) item st
        = assign_member value (negb (ref_get value (cfg st))) st) bool_items
  ∧ Forall (λ '(appearance, _, map),
        Forall (λ '(new_value, id),
            activate (tray app) id st
            = assign_member (ref_Accent appearance) new_value st) (map_to_list map))
      appearance_items
  ∧ Forall (λ '(new_value, id),
        activate (tray app) id st = assign_member cfg_ref.Peek new_value st)
      (map_to_list PEEK_BUTTON_MAP)
  ∧ Forall (λ '(new_value, id),
        activate (tray app) id st
        = assign_member cfg_ref.LogVerbosity new_value (Log_SetLevel new_value st))
      (map_to_list LOG_BUTTON_MAP).
Proof.
  intros app. subst app.
  split.
  { intros wp lp st'. subst st'. rewrite dispatch_FILECHANGED.
    split; [apply SetConfig_stores | reflexivity]. }
  split; [intros m; apply dispatch_stores|].
  split.
  { intros m Hm. split; [|by apply dispatch_cfg].
    pose proof (dispatch_stores st0 m st) as H. unfold stores_since in H.
    rewrite decide_False in H by done. by rewrite app_nil_r in H. }
  split.
  { intros m. pose proof (dispatch_stores st0 m st) as H.
    destruct (decide _); [by exists 1 | by exists 0]. }
  split.
  { intros file. unfold stores_since. rewrite InitializeTray_watcher.
    destruct (_ || _); simpl; by rewrite app_nil_r. }
  split; [intros id; apply activate_stores|].
  split; [unfold bool_items; repeat constructor; run_menu|].
  split; [unfold appearance_items; repeat constructor; run_menu|].
  split; repeat constructor; run_menu.
Qed.

End Stores.

(** C1, as stated, fails: the item [ID_DESKTOP_ON_PEEK] negates the one
    member [UseRegularAppearanceWhenPeeking] of the shared configuration in
    place, and the configuration is not assigned whole. *)
Lemma desktop_on_peek_stores_member :
  let st' := activate (tray Sample.app) ID_DESKTOP_ON_PEEK Sample.state in
  stores_since Sample.state st' [StoreMember "UseRegularAppearanceWhenPeeking"]
  ∧ cfg st' = set_UseRegularAppearanceWhenPeeking true Sample.config
  ∧ ¬ whole_value_only Sample.state st'.
Proof.
  repeat split; try by vm_compute.
  intros [n Hn]. unfold stores_since in Hn.
  change ([StoreMember "UseRegularAppearanceWhenPeeking"] = [] ++ replicate n StoreWhole) in Hn.
  destruct n; discriminate.
Qed.

(** ** Entry points of the worker *)

Section EntryPoints.
Context (E : Env).




End EntryPoints.



(** ** The resolver and the applier *)

Section Resolver.
Import Core.

Lemma Resolve_peek config snapshot monitor :
  PeekActive snapshot = true → peek_qualifies config snapshot = true →
  UseRegularAppearanceWhenPeeking config = false →
  Resolve config snapshot monitor = DesktopAppearance config.
Proof. intros Ha Hq Hu. unfold Resolve. by rewrite Ha, Hq, Hu. Qed.

(** C3: when the optional appearance the classification selects is disabled,
    [Resolve] returns the desktop appearance, in particular for a regular
    application with the visible-window appearance disabled; and [Resolve]
    always returns either the desktop appearance or the selected appearance,
    the latter only when it is enabled. *)
Theorem Resolve_disabled_falls_back config snapshot monitor :
  (Enabled (selected config (classify snapshot monitor)) = false →
     Resolve config snapshot monitor = DesktopAppearance config)
  ∧ (Enabled (VisibleWindowAppearance config) = false →
     classify snapshot monitor = RegularApp →
     Resolve config snapshot monitor = DesktopAppearance config)
  ∧ (Resolve config snapshot monitor = DesktopAppearance config
     ∨ (Enabled (selected config (classify snapshot monitor)) = true
        ∧ Resolve config snapshot monitor
          = base (selected config (classify snapshot monitor)))).
Proof.
  assert (Hsel : Enabled (selected config (classify snapshot monitor)) = false →
                 Resolve config snapshot monitor = DesktopAppearance config).
  { intros Hd. unfold Resolve. rewrite Hd. by destruct (_ && _). }
  split; [exact Hsel|]. split.
  - intros Hv Hc. apply Hsel. by rewrite Hc.
  - destruct (Enabled (selected config (classify snapshot monitor))) eqn:He.
    + unfold Resolve. rewrite He. destruct (_ && _); [by left | by right].
    + left. by apply Hsel.
Qed.

End Resolver.

(** C3, for a regular application on the sample configuration, whose
    visible-window appearance is disabled. *)
Lemma Resolve_regular_app_sample :
  Core.Resolve Sample.config Sample.snapshot 1%N = DesktopAppearance Sample.config.
Proof.
  apply (Resolve_disabled_falls_back Sample.config Sample.snapshot 1%N); reflexivity.
Defined.

Section Applier.
Import Core.
Context {OS : Type} (SetComposition : OS → Monitor → TaskbarAppearance → bool * OS).

Implicit Types (i : TaskbarInstance) (a : TaskbarAppearance) (w : World OS).

Lemma Apply_cached i a w : lastApplied i = Some a → Apply SetComposition i a w = (i, w).
Proof. intros H. unfold Core.Apply. by rewrite decide_True. Qed.

Lemma Apply_calls i a w :
  os_calls (Apply SetComposition i a w).2
  = os_calls w ++ (if decide (lastApplied i = Some a) then [] else [(monitor i, a)]).
Proof.
  unfold Core.Apply. destruct (decide _); [by rewrite app_nil_r|].
  destruct (SetComposition _ _ _) as [[] os']; reflexivity.
Qed.

Lemma Apply_lastApplied i a w :
  lastApplied (Apply SetComposition i a w).1
  = if decide (lastApplied i = Some a) then Some a
    else if accepted SetComposition i a w then Some a else lastApplied i.
Proof.
  unfold Core.Apply, accepted. destruct (decide _) as [Heq|]; [done|].
  destruct (SetComposition _ _ _) as [[] os']; reflexivity.
Qed.

Lemma Apply_monitor i a w : monitor (Apply SetComposition i a w).1 = monitor i.
Proof.
  unfold Core.Apply. destruct (decide _); [done|].
  destruct (SetComposition _ _ _) as [[] os']; reflexivity.
Qed.

(** C2, as amended: [Apply] makes no call and changes nothing when the
    appearance is the cached one; of two applications in a row of one
    appearance the second makes a call only if the first one's call was
    rejected, so that the two make at most one call whenever the system
    accepts the first, and at most two in any case. *)
Theorem Apply_twice_calls i a w :
  (lastApplied i = Some a → Apply SetComposition i a w = (i, w))
  ∧ (accepted SetComposition i a w = true →
       (length (os_calls (Apply_twice SetComposition i a w).2) ≤ length (os_calls w) + 1)%nat
       ∧ lastApplied (Apply_twice SetComposition i a w).1 = Some a)
  ∧ (length (os_calls (Apply_twice SetComposition i a w).2) ≤ length (os_calls w) + 2)%nat
  ∧ (lastApplied i ≠ Some a → accepted SetComposition i a w = false →
       os_calls (Apply_twice SetComposition i a w).2 = os_calls w ++ [(monitor i, a); (monitor i, a)]).
Proof.
  split; [apply Apply_cached|].
  unfold Core.Apply_twice.
  destruct (Apply SetComposition i a w) as [i1 w1] eqn:H1.
  pose proof (Apply_calls i a w) as Hc1. pose proof (Apply_lastApplied i a w) as Hl1.
  pose proof (Apply_monitor i a w) as Hm1.
  rewrite H1 in Hc1, Hl1, Hm1. simpl in Hc1, Hl1, Hm1.
  pose proof (Apply_calls i1 a w1) as Hc2. pose proof (Apply_lastApplied i1 a w1) as Hl2.
  rewrite Hc2, Hl2. clear Hc2 Hl2.
  split; [|split].
  - intros Hacc. rewrite Hacc in Hl1.
    assert (Hl : lastApplied i1 = Some a) by (by destruct (decide _)).
    rewrite !decide_True by done. rewrite Hc1, !length_app.
    split; [|reflexivity]. destruct (decide _); simpl; lia.
  - rewrite Hc1, !length_app. repeat destruct (decide _); simpl; lia.
  - intros Hne Hrej. rewrite decide_False in Hl1 by done.
    rewrite decide_False in Hc1 by done. rewrite Hrej in Hl1.
    rewrite decide_False by congruence. by rewrite Hc1, Hm1, <- app_assoc.
Qed.

End Applier.

(** C2, on a system that accepts the request: one call. *)
Lemma Apply_twice_accepting_sample :
  (length (Core.os_calls
             (Core.Apply_twice Sample.accepting Sample.instance Sample.appearance Sample.world).2)
   ≤ 0 + 1)%nat
  ∧ Core.lastApplied
      (Core.Apply_twice Sample.accepting Sample.instance Sample.appearance Sample.world).1
    = Some Sample.appearance.
Proof.
  apply (Apply_twice_calls Sample.accepting Sample.instance Sample.appearance Sample.world).
  reflexivity.
Defined.

(** C2, as stated, fails: on a system that rejects the request, two
    applications in a row of one appearance make two calls. *)
Lemma Apply_twice_rejecting_calls :
  let w := (Core.Apply_twice Sample.rejecting Sample.instance Sample.appearance Sample.world).2 in
  Core.os_calls w = [(1%N, Sample.appearance); (1%N, Sample.appearance)]
  ∧ ¬ (length (Core.os_calls w) ≤ 1)%nat.
Proof. split; [reflexivity|]. vm_compute. lia. Qed.

(** * Further properties of [main.cpp] *)

(** ** The interface mirrors the configuration *)

Section Sync.
Context (E : Env).

(** The tables [InitializeTray] builds do not depend on the state it is
    given. *)
Lemma InitializeTray_app st st' : (InitializeTray E st).1 = (InitializeTray E st').1.
Proof. reflexivity. Qed.

(** What [SetConfig] does to the tray icon and to the logger. *)
Lemma SetConfig_tray_shown c st :
  tray_shown (SetConfig c st)
  = if bool_decide (HideTray (cfg st) ≠ HideTray c) then negb (HideTray c)
    else tray_shown st.
Proof.
  unfold SetConfig.
  destruct (bool_decide (HideTray (cfg st) ≠ HideTray c)), (HideTray c);
    cbn; destruct (bool_decide _); reflexivity.
Qed.

Lemma SetConfig_log_level c st :
  log_level (SetConfig c st)
  = if bool_decide (LogVerbosity (cfg st) ≠ LogVerbosity c) then LogVerbosity c
    else log_level st.
Proof.
  unfold SetConfig.
  destruct (bool_decide (HideTray (cfg st) ≠ HideTray c)), (HideTray c);
    cbn; destruct (bool_decide _); reflexivity.
Qed.

Lemma SetConfig_sync c st :
  (tray_follows_config st → tray_follows_config (SetConfig c st))
  ∧ (log_follows_config st → log_follows_config (SetConfig c st)).
Proof.
  unfold tray_follows_config, log_follows_config.
  rewrite SetConfig_tray_shown, SetConfig_log_level, SetConfig_cfg.
  split; intros H; case_bool_decide as Hne; try reflexivity;
    by rewrite H, Hne.
Qed.

Lemma activate_sync st0 id st :
  (tray_follows_config st → tray_follows_config (activate (tray (InitializeTray E st0).1) id st))
  ∧ (log_follows_config st → log_follows_config (activate (tray (InitializeTray E st0).1) id st)).
Proof.
  unfold tray_follows_config, log_follows_config.
  destruct (activate_saving_items E st0 st) as (Hedit & Hdefault & Hexit & Hhide).
  pose proof (SaveConfig_frame E (cfg st) (config_file E) false st)
    as (Hc & _ & _ & Ht & Hl & _).
  pose proof (SaveConfig_frame E (DefaultConfig E) (config_file E) false st)
    as (Hc' & _ & _ & Ht' & Hl' & _).
  destruct id.
  all: try solve [
    clear Hedit Hdefault Hexit Hhide Hc Ht Hl Hc' Ht' Hl';
    destruct E as [an cf hp ic dc de se iv cfo cfi mw];
    destruct st as [c s f q t ll li au mb qu ca];
    destruct c as [d v m s' co ti p u h ds lv];
    cbn [cfg tray_shown log_level HideTray LogVerbosity];
    destruct hp; split; intros H; first [exact H | reflexivity] ].
  - (* ID_EDITSETTINGS *)
    rewrite Hedit. cbn [call with_calls cfg tray_shown log_level]. by rewrite Hc, Ht, Hl.
  - (* ID_RETURNTODEFAULTSETTINGS *)
    rewrite Hdefault. by rewrite Hc', Ht', Hl'.
  - (* ID_HIDETRAY *)
    rewrite Hhide. cbn zeta. change (msgbox_yes (call _ st)) with (msgbox_yes st).
    destruct (msgbox_yes st); [|done].
    match goal with
    | |- context [SaveConfig E ?c ?f ?o ?s] =>
        pose proof (SaveConfig_frame E c f o s) as (Hc2 & _ & _ & Ht2 & Hl2 & _)
    end.
    rewrite Hc2, Ht2, Hl2. done.
  - (* ID_EXIT *)
    rewrite Hexit. cbn [PostQuitMessage with_quit cfg tray_shown log_level].
    by rewrite Hc, Ht, Hl.
Qed.

Lemma dispatch_sync st0 m st :
  (tray_follows_config st → tray_follows_config (dispatch (window (InitializeTray E st0).1) m st).1)
  ∧ (log_follows_config st → log_follows_config (dispatch (window (InitializeTray E st0).1) m st).1).
Proof.
  unfold dispatch. rewrite InitializeTray_handlers.
  pose proof (SaveConfig_frame E (cfg st) (config_file E) false st)
    as (Hc & _ & _ & Ht & Hl & _).
  unfold tray_follows_config, log_follows_config.
  destruct m as [[] wp lp]; cbn [msg wParam lParam]; simpl list_find; cbn beta iota.
  - apply SetConfig_sync.
  - unfold save_and_exit, PostQuitMessage. cbn [fst with_quit cfg tray_shown log_level].
    by rewrite Hc, Ht, Hl.
  - cbn [fst]. by destruct (bool_decide _).
  - cbn [fst]. destruct (bool_decide _); [|done]. by rewrite Hc, Ht, Hl.
  - done.
Qed.

Lemma handle_event_sync st0 ev st :
  (tray_follows_config st → tray_follows_config (handle_event (InitializeTray E st0).1 ev st))
  ∧ (log_follows_config st → log_follows_config (handle_event (InitializeTray E st0).1 ev st)).
Proof.
  destruct ev as [id|file| |m|fs|yes]; cbn [handle_event].
  - apply activate_sync.
  - rewrite InitializeTray_watcher. by destruct (_ || _).
  - unfold pump. destruct (queue st) as [|m q]; [done|].
    destruct (dispatch_sync st0 m (with_queue q st)) as [Ht Hl].
    split; intros H; [apply Ht | apply Hl]; exact H.
  - apply dispatch_sync.
  - done.
  - done.
Qed.

Lemma run_events_sync st0 events st :
  (tray_follows_config st → tray_follows_config (run_events (InitializeTray E st0).1 events st))
  ∧ (log_follows_config st → log_follows_config (run_events (InitializeTray E st0).1 events st)).
Proof.
  revert st. induction events as [|ev events IH]; intros st; [done|].
  cbn [run_events foldl]. fold (run_events (InitializeTray E st0).1 events).
  destruct (handle_event_sync st0 ev st) as [Ht Hl].
  destruct (IH (handle_event (InitializeTray E st0).1 ev st)) as [Ht' Hl'].
  split; auto.
Qed.

(** X1: if the tray icon is visible when it is constructed, then from
    start-up on, whatever reaches the program, the icon is shown exactly
    when [cfg.HideTray] is clear. *)
Theorem tray_icon_mirrors_HideTray st events :
  tray_shown st = true →
  tray_follows_config (run_events (startup E st).1 events (startup E st).2).
Proof.
  intros Hshown. unfold startup.
  rewrite (InitializeTray_app _ st). apply run_events_sync.
  unfold tray_follows_config, InitializeTray. cbn [snd].
  cbn [cfg Log_SetLevel with_log_level with_cfg].
  destruct (HideTray (LoadConfig E (files st) (config_file E))) eqn:Hh;
    cbn; by rewrite ?Hh, ?Hshown.
Qed.

(** X2: from start-up on, whatever reaches the program, the logger runs at
    the verbosity [cfg.LogVerbosity] names. *)
Theorem log_level_mirrors_LogVerbosity st events :
  log_follows_config (run_events (startup E st).1 events (startup E st).2).
Proof.
  unfold startup. rewrite (InitializeTray_app _ st). apply run_events_sync.
  unfold log_follows_config, InitializeTray. cbn [snd].
  by destruct (HideTray _).
Qed.

End Sync.

(** X1, on the sample run. *)
Lemma tray_icon_mirrors_HideTray_sample :
  tray_follows_config
    (run_events (startup Sample.env Sample.state).1 Scenario.events
                (startup Sample.env Sample.state).2).
Proof.
  apply (tray_icon_mirrors_HideTray Sample.env Sample.state Scenario.events).
  reflexivity.
Defined.

(** ** Who writes the configuration file *)

Section Writes.
Context (E : Env).

Lemma activate_files_DisableSaving st0 id st :
  DisableSaving (cfg st) = true → id ≠ ID_RETURNTODEFAULTSETTINGS →
  files (activate (tray (InitializeTray E st0).1) id st) = files st.
Proof.
  destruct E as [an cf hp ic dc de se iv cfo cfi mw].
  destruct st as [c s f q t ll li au mb qu ca].
  destruct c as [d v m s' co ti p u h ds lv].
  cbn [cfg DisableSaving]. intros -> Hid.
  destruct hp, id; try done.
  all: try solve [vm_compute; reflexivity].
  all: destruct mb; vm_compute; reflexivity.
Qed.

Lemma dispatch_files_DisableSaving st0 m st :
  DisableSaving (cfg st) = true →
  files (dispatch (window (InitializeTray E st0).1) m st).1 = files st.
Proof.
  intros Hds. unfold dispatch. rewrite InitializeTray_handlers.
  destruct m as [[] wp lp]; cbn [msg wParam lParam]; simpl list_find; cbn beta iota.
  - apply SetConfig_files.
  - unfold save_and_exit, SaveConfig. by rewrite Hds.
  - cbn [fst]. by destruct (bool_decide _).
  - cbn [fst]. unfold SaveConfig. rewrite Hds. by destruct (bool_decide _).
  - done.
Qed.

(** X3: while [cfg.DisableSaving] is set, no menu item but "return to
    default settings" writes any file, and neither does any window message
    nor the folder change reader. *)
Theorem DisableSaving_blocks_writes st0 st :
  DisableSaving (cfg st) = true →
  let app := (InitializeTray E st0).1 in
  (∀ id, id ≠ ID_RETURNTODEFAULTSETTINGS → files (activate (tray app) id st) = files st)
  ∧ (∀ m, files (dispatch (window app) m st).1 = files st)
  ∧ (∀ file, files (watcher app file st) = files st).
Proof.
  intros Hds app. subst app. split; [|split].
  - intros id Hid. by apply activate_files_DisableSaving.
  - intros m. by apply dispatch_files_DisableSaving.
  - intros file. rewrite InitializeTray_watcher. by destruct (_ || _).
Qed.

(** X4: "return to default settings" looks at the default configuration's
    own [DisableSaving], not at the current one.  When that is clear and the
    stream on the configuration file (a file, or no entry yet) opens, the
    defaults are written
    whatever [cfg.DisableSaving] says, and once the folder change reader has
    reported the file and the loop has taken the message, the configuration
    is what the written text deserializes to.  When the stream does not
    open, the item does nothing at all. *)
Theorem return_to_default_reloads st0 file st :
  DisableSaving (DefaultConfig E) = false →
  IgnoreCaseStringEquals E file (CONFIG_FILE E) = true →
  queue st = [] →
  let app := (InitializeTray E st0).1 in
  let written := saved_text E (DefaultConfig E) in
  let st' := run_events app
               [Ev_menu ID_RETURNTODEFAULTSETTINGS; Ev_folder_change file; Ev_pump] st in
  cfg st' = LoadConfig E (files st') (config_file E)
  ∧ (opens_for_writing E (files st) (config_file E) = true →
     files st !! config_file E ≠ Some OtherNode →
       files st' = <[config_file E := RegularFile written]> (files st)
       ∧ cfg st' = Deserialize E (DefaultConfig E) written)
  ∧ (opens_for_writing E (files st) (config_file E) = false →
       activate (tray app) ID_RETURNTODEFAULTSETTINGS st = st
       ∧ files st' = files st).
Proof.
  intros Hd Hfile Hq app written st'. subst app written st'.
  cbn [run_events foldl handle_event].
  destruct (activate_saving_items E st0 st) as (_ & -> & _).
  rewrite InitializeTray_watcher, Hfile, orb_true_r.
  rewrite SaveConfig_unfold, Hd. cbn [negb orb andb].
  destruct (opens_for_writing E (files st) (config_file E)) eqn:Ho.
  - erewrite pump_FILECHANGED; [|cbn; rewrite Hq; reflexivity].
    rewrite SetConfig_files, SetConfig_cfg.
    cbn [files with_queue post_message call with_calls with_files].
    split; [reflexivity|]. split; [|discriminate].
    intros _ Hother. rewrite write_file_insert by done.
    split; [reflexivity|]. apply LoadConfig_regular. apply lookup_insert_eq.
  - erewrite pump_FILECHANGED; [|cbn; rewrite Hq; reflexivity].
    rewrite SetConfig_files, SetConfig_cfg.
    cbn [files with_queue post_message].
    split; [reflexivity|]. split; [discriminate|]. done.
Qed.

(** [k] reports in a row leave [k] messages in the queue and nothing else. *)
Lemma run_reports st0 file k st :
  file = EmptyString ∨ IgnoreCaseStringEquals E file (CONFIG_FILE E) = true →
  let st' := run_events (InitializeTray E st0).1 (replicate k (Ev_folder_change file)) st in
  queue st' = queue st
              ++ replicate k {| msg := WM_FILECHANGED; wParam := 0; lParam := 0 |}
  ∧ with_queue (queue st) st' = st.
Proof.
  intros Hfile.
  assert (Hcond : bool_decide (file = EmptyString)
                  || IgnoreCaseStringEquals E file (CONFIG_FILE E) = true).
  { destruct Hfile as [->| ->]; [done | apply orb_true_r]. }
  revert st. induction k as [|k IH]; intros st.
  - cbn [replicate run_events foldl]. rewrite app_nil_r. by destruct st.
  - cbn [replicate]. rewrite run_events_cons. cbn [handle_event].
    rewrite InitializeTray_watcher, Hcond.
    destruct (IH (post_message WM_FILECHANGED st)) as [IHq IHs].
    cbn zeta. rewrite IHq. cbn [post_message queue with_queue]. rewrite <- app_assoc.
    split; [reflexivity|].
    destruct st as [c s f q t ll li au mb qu ca].
    cbn [post_message queue with_queue cfg cfg_stores files tray_shown log_level log_init
         autostart msgbox_yes quit calls] in IHs |- *.
    destruct (run_events _ _ _) as [c' s' f' q' t' ll' li' au' mb' qu' ca'].
    cbn [with_queue cfg cfg_stores files tray_shown log_level log_init
         autostart msgbox_yes quit calls] in IHs |- *.
    by injection IHs as -> -> -> -> -> -> -> -> -> ->.
Qed.

(** X5: every report of the folder change reader costs one reload: after
    [n] reports and [n] turns of the loop the configuration has been
    assigned whole [n] times, no message is left, no file was touched, and
    the configuration is the one the file holds. *)
Theorem every_report_reloads st0 file n st :
  file = EmptyString ∨ IgnoreCaseStringEquals E file (CONFIG_FILE E) = true →
  queue st = [] →
  let app := (InitializeTray E st0).1 in
  let st' := run_events app (replicate n (Ev_folder_change file)
                             ++ replicate n Ev_pump) st in
  cfg_stores st' = cfg_stores st ++ replicate n StoreWhole
  ∧ queue st' = []
  ∧ files st' = files st
  ∧ (0 < n → cfg st' = LoadConfig E (files st) (config_file E)).
Proof.
  intros Hfile Hq app st'. subst app st'.
  set (m := {| msg := WM_FILECHANGED; wParam := 0; lParam := 0 |}).
  rewrite run_events_app.
  destruct (run_reports st0 file n st Hfile) as [Hqn Hsame]. fold m in Hqn.
  rewrite Hq in Hqn, Hsame. cbn [app] in Hqn.
  set (s1 := run_events _ (replicate n (Ev_folder_change file)) st) in *.
  assert (Hs1 : cfg_stores s1 = cfg_stores st ∧ files s1 = files st).
  { rewrite <- Hsame. by destruct s1. }
  destruct Hs1 as [Hst Hfi]. rewrite <- Hst, <- Hfi. clear Hsame Hst Hfi Hq.
  revert Hqn. generalize s1. clear s1.
  induction n as [|n IH]; intros s Hqs.
  - cbn [replicate run_events foldl]. rewrite app_nil_r. repeat split; [done|lia].
  - cbn [replicate] in *. rewrite run_events_cons. cbn [handle_event].
    rewrite (pump_FILECHANGED E st0 0 0 (replicate n m) s Hqs).
    destruct (IH (SetConfig (LoadConfig E (files s) (config_file E)) (with_queue (replicate n m) s)))
      as (IHs & IHq & IHf & IHc).
    { by rewrite SetConfig_queue. }
    rewrite IHs, IHq, IHf, SetConfig_stores, SetConfig_files. cbn [cfg_stores files with_queue].
    split; [by rewrite <- app_assoc|]. split; [done|]. split; [done|].
    intros _. destruct n as [|n].
    + cbn [replicate run_events foldl]. apply SetConfig_cfg.
    + rewrite IHc by lia. by rewrite SetConfig_files.
Qed.

End Writes.

(** X3, on the sample state with saving disabled: leaving through the menu
    writes nothing. *)
Lemma DisableSaving_blocks_writes_sample :
  files (activate (tray Sample.app) ID_EXIT Scenario.saving_disabled)
  = files Scenario.saving_disabled.
Proof.
  destruct (DisableSaving_blocks_writes Sample.env Sample.state Scenario.saving_disabled
              eq_refl) as [Hmenu _].
  apply Hmenu. discriminate.
Defined.

(** X4, on the sample state with saving disabled. *)
Lemma return_to_default_reloads_sample :
  let st' := run_events Sample.app
               [Ev_menu ID_RETURNTODEFAULTSETTINGS; Ev_folder_change "config.json"; Ev_pump]
               Scenario.saving_disabled in
  files st' !! config_file Sample.env
  = Some (RegularFile (saved_text Sample.env Sample.config))
  ∧ cfg st' = Sample.config.
Proof.
  destruct (return_to_default_reloads Sample.env Sample.state "config.json"
              Scenario.saving_disabled eq_refl eq_refl eq_refl) as (_ & Hopen & _).
  destruct (Hopen eq_refl) as [Hfiles Hcfg]; [discriminate|].
  unfold Sample.app. cbn zeta. split; [|exact Hcfg].
  rewrite Hfiles. apply lookup_insert_eq.
Defined.

(** X5, for three reports on the sample state. *)
Lemma every_report_reloads_sample :
  let st' := run_events Sample.app
               (replicate 3 (Ev_folder_change "config.json") ++ replicate 3 Ev_pump)
               Sample.state in
  cfg_stores st' = [StoreWhole; StoreWhole; StoreWhole] ∧ queue st' = [].
Proof.
  destruct (every_report_reloads Sample.env Sample.state "config.json" 3 Sample.state
              (or_intror eq_refl) eq_refl) as (Hstores & Hqueue & _).
  split; [exact Hstores | exact Hqueue].
Defined.

(** ** The message loop and the way out *)

Section Loop.
Context (E : Env).


(** X6: no callback of the tray window posts a message: a turn of the loop
    takes one message off the queue and adds none, so the loop empties a
    queue in as many turns as it holds messages. *)
Theorem loop_drains_queue st0 st :
  let app := (InitializeTray E st0).1 in
  (∀ m, queue (dispatch (window app) m st).1 = queue st)
  ∧ queue (pump app st) = tail (queue st)
  ∧ queue (run_events app (replicate (length (queue st)) Ev_pump) st) = [].
Proof.
  intros app. subst app. split; [|split].
  - intros m. apply dispatch_queue_quit.
  - apply pump_queue.
  - remember (length (queue st)) as n eqn:Hn. revert st Hn.
    induction n as [|n IH]; intros st Hn.
    + cbn. by destruct (queue st).
    + cbn [replicate]. rewrite run_events_cons. cbn [handle_event]. apply IH.
      rewrite pump_queue. destruct (queue st); [discriminate|]. cbn in *. lia.
Qed.



(** X7: the end-of-session messages.  [WM_QUERYENDSESSION] always answers
    [TRUE], never touches configuration or files, and registers the program
    for restart exactly when bit 0 of [lParam] is set, whatever the other
    bits; [WM_ENDSESSION] always answers 0 and saves exactly when [wParam] is
    not zero. *)
Theorem end_of_session st0 wp lp st :
  let app := (InitializeTray E st0).1 in
  dispatch (window app) {| msg := WM_QUERYENDSESSION; wParam := wp; lParam := lp |} st
  = (if Z.testbit lp 0 then call Call_RegisterApplicationRestart st else st, TRUE)
  ∧ dispatch (window app) {| msg := WM_ENDSESSION; wParam := wp; lParam := lp |} st
    = (if decide (wp = 0%Z) then st else SaveConfig E (cfg st) (config_file E) false st, 0%Z).
Proof.
  intros app. subst app. unfold dispatch. rewrite InitializeTray_handlers.
  cbn [msg wParam lParam]. simpl list_find. cbn beta iota. split.
  - f_equal. unfold ENDSESSION_CLOSEAPP.
    replace (Z.land lp 1) with (Z.b2z (Z.testbit lp 0)).
    + by destruct (Z.testbit lp 0).
    + rewrite Z.bit0_mod. change 1%Z with (Z.ones 1). rewrite Z.land_ones by lia.
      by rewrite Z.pow_1_r.
  - f_equal. destruct (decide (wp = 0%Z)) as [->|Hw].
    + by rewrite bool_decide_eq_false_2 by auto.
    + by rewrite bool_decide_eq_true_2.
Qed.

End Loop.

(** ** Start-up *)

(** X8: the first call of [IsSingleInstance] in a process answers whether
    the named mutex was absent, and leaves it present and the handle set; every
    later call in the same process answers [true] whatever the first
    answered; a second process starting while the first runs is told it is
    not alone. *)
Theorem IsSingleInstance_calls guid named :
  let '(first, named1, mutex1) := IsSingleInstance guid named false in
  let '(second, named2, mutex2) := IsSingleInstance guid named1 mutex1 in
  let '(other, named3, _) := IsSingleInstance guid named2 false in
  (first = true ↔ guid ∉ named)
  ∧ guid ∈ named1 ∧ mutex1 = true
  ∧ second = true ∧ named2 = named1 ∧ mutex2 = true
  ∧ other = false ∧ named3 = named1.
Proof.
  unfold IsSingleInstance. cbn [negb].
  destruct (bool_decide (guid ∈ named)) eqn:Hin; cbn [negb].
  - apply bool_decide_eq_true in Hin. rewrite bool_decide_eq_true_2 by done.
    cbn [negb]. repeat split; done.
  - apply bool_decide_eq_false in Hin.
    assert (Hin' : guid ∈ ({[guid]} ∪ named : gset string))
      by (apply elem_of_union; left; by apply elem_of_singleton).
    rewrite bool_decide_eq_true_2 by done. cbn [negb]. repeat split; done.
Qed.

Section Welcome.
Context (E : Env).

Lemma existsb_elem_of {A} (f : A → bool) (l : list A) :
  existsb f l = true ↔ ∃ x, x ∈ l ∧ f x = true.
Proof.
  rewrite existsb_exists. split; intros (x & Hx & Hf); exists x; split; try done;
    by apply list_elem_of_In.
Qed.


(** A directory holds an entry when some other path of the file system lies
    in its tree. *)
Lemma has_entries_spec fs dir :
  has_entries fs dir = true
  ↔ ∃ p n, p ≠ dir ∧ path_inside dir p = true ∧ fs !! p = Some n.
Proof.
  unfold has_entries. rewrite existsb_elem_of. split.
  - intros ([p n] & Hin%elem_of_map_to_list & Hf). cbn in Hf.
    apply andb_true_iff in Hf as [Hne%negb_true_iff%bool_decide_eq_false Hp]. eauto.
  - intros (p & n & Hne & Hp & Hin). exists (p, n). split; [by apply elem_of_map_to_list|].
    cbn. rewrite Hp. by rewrite bool_decide_eq_false_2.
Qed.


Lemma lookup_remove_all dir fs fs' p :
  remove_all E dir fs = Some fs' →
  fs' !! p = if path_inside dir p then None else fs !! p.
Proof.
  unfold remove_all. destruct (forallb _ _); [|discriminate]. intros [= <-].
  destruct (path_inside dir p) eqn:Hp.
  - apply map_lookup_filter_None. right. intros x _. cbn. by rewrite Hp.
  - destruct (fs !! p) as [x|] eqn:Hx.
    + apply map_lookup_filter_Some. split; [done|]. cbn. done.
    + apply map_lookup_filter_None. by left.
Qed.

(** A path lies in its own tree. *)
Lemma path_inside_refl dir : path_inside dir dir = true.
Proof. unfold path_inside. by rewrite bool_decide_eq_true_2. Qed.

(** [remove] throws for a directory that holds an entry and for an entry
    the system protects; otherwise the entry is gone, every other path is as
    it was, and the answer tells whether there was an entry. *)
Lemma remove_None p fs :
  remove E p fs = None
  ↔ (fs !! p = Some Directory ∧ has_entries fs p = true)
    ∨ (is_Some (fs !! p) ∧ may_write E p = false).
Proof.
  unfold remove. destruct (fs !! p) as [node|] eqn:Hp.
  - destruct node, (has_entries fs p), (may_write E p); cbn; split; intros H;
      try done; try (by left); try (by right; eauto);
      destruct H as [[? ?]|[? ?]]; done.
  - split; [done|]. intros [[? _]|[[? ?] _]]; done.
Qed.

Lemma remove_Some p fs b fs' :
  remove E p fs = Some (b, fs') →
  (b = true ↔ is_Some (fs !! p))
  ∧ fs' !! p = None ∧ ∀ q, q ≠ p → fs' !! q = fs !! q.
Proof.
  unfold remove. destruct (fs !! p) as [node|] eqn:Hp.
  - destruct (_ || _); [discriminate|]. intros [= <- <-].
    split; [split; eauto|]. split; [apply lookup_delete_eq|].
    intros q Hq. by apply lookup_delete_ne.
  - intros [= <- <-]. split; [split; [done | by intros [? ?]]|]. done.
Qed.

Lemma SaveConfig_files_other c file o st p :
  p ≠ file → files (SaveConfig E c file o st) !! p = files st !! p.
Proof.
  intros Hp. rewrite SaveConfig_unfold. destruct (_ && _); [|done].
  cbn. rewrite lookup_write_file. by rewrite decide_False.
Qed.

(** What [CheckAndRunWelcome] has done when it returns. *)
Lemma CheckAndRunWelcome_returns old_folder accepted st ok st' :
  CheckAndRunWelcome E old_folder accepted st = Some (ok, st') →
  (ok = false ↔ is_regular_file (files st) (config_file E) = false ∧ accepted = false)
  ∧ (ok = false →
       files st' !! config_file E = None
       ∧ ∀ p, p ≠ config_file E → files st' !! p = files st !! p)
  ∧ cfg st' = cfg st ∧ quit st' = quit st.
Proof.
  unfold CheckAndRunWelcome.
  pose proof (SaveConfig_frame E (DefaultConfig E) (config_file E) false st)
    as (Hc & _ & _ & _ & _ & _ & Hx).
  destruct (is_regular_file (files st) (config_file E)), accepted; cbn [negb].
  - destruct (remove_all _ _ _); [|discriminate]. intros [= <- <-].
    split; [split; [done | by intros [? ?]]|]. done.
  - destruct (remove_all _ _ _); [|discriminate]. intros [= <- <-].
    split; [split; [done | by intros [? ?]]|]. done.
  - destruct (remove_all _ _ _); [|discriminate]. intros [= <- <-].
    split; [split; [done | by intros [? ?]]|]. done.
  - destruct (remove E _ _) as [[b fs]|] eqn:Hr; [|discriminate]. intros [= <- <-].
    apply remove_Some in Hr as (_ & Hgone & Hother).
    split; [done|]. split; [|done]. intros _. split; [exact Hgone|].
    intros p Hp. cbn [files with_files]. rewrite Hother by done.
    by apply SaveConfig_files_other.
Qed.

(** When the dialog is declined, [CheckAndRunWelcome] throws exactly when a
    directory that is not empty stands where the configuration file should
    be, or the system protects what stands there. *)
Lemma CheckAndRunWelcome_throws old_folder st :
  is_regular_file (files st) (config_file E) = false →
  (CheckAndRunWelcome E old_folder false st = None
   ↔ (files st !! config_file E = Some Directory
      ∧ has_entries (files st) (config_file E) = true)
     ∨ (is_Some (files st !! config_file E) ∧ may_write E (config_file E) = false)).
Proof.
  intros Hreg. unfold CheckAndRunWelcome. rewrite Hreg. cbn [negb].
  rewrite SaveConfig_unfold.
  destruct (_ && opens_for_writing E (files st) (config_file E)) eqn:Ho.
  - apply andb_true_iff in Ho as [_ Ho].
    pose proof Ho as (Hd & Hw)%opens_for_writing_true.
    cbn [files call with_calls with_files].
    unfold remove. rewrite lookup_write_file, decide_True by done. rewrite Hw.
    destruct (decide _); cbn; (split; [done|]); intros [[? _]|[_ ?]]; congruence.
  - destruct (remove E (config_file E) (files st)) as [[b fs]|] eqn:Hr; cbn.
    + split; [done|]. intros H. apply remove_None in H. congruence.
    + split; [|done]. intros _. by apply remove_None.
Qed.

(** X9: [CheckAndRunWelcome] returns [false] only when there is no
    configuration file and the welcome dialog is declined, and then leaves
    no entry at the path of the configuration file and every other path as
    it was; it never changes the configuration in memory.  With the dialog
    declined it does not return at all but throws when a directory that is
    not empty stands at that path, or when the system protects what stands
    there. *)
Theorem CheckAndRunWelcome_declined old_folder accepted st :
  (∀ ok st', CheckAndRunWelcome E old_folder accepted st = Some (ok, st') →
     (ok = false ↔ is_regular_file (files st) (config_file E) = false ∧ accepted = false)
     ∧ (ok = false →
          files st' !! config_file E = None
          ∧ ∀ p, p ≠ config_file E → files st' !! p = files st !! p)
     ∧ cfg st' = cfg st)
  ∧ (is_regular_file (files st) (config_file E) = false → accepted = false →
       (CheckAndRunWelcome E old_folder accepted st = None
        ↔ (files st !! config_file E = Some Directory
           ∧ has_entries (files st) (config_file E) = true)
          ∨ (is_Some (files st !! config_file E) ∧ may_write E (config_file E) = false))
       ∧ (CheckAndRunWelcome E old_folder accepted st = None
          ∨ ∃ st', CheckAndRunWelcome E old_folder accepted st = Some (false, st')))
  ∧ (files st !! config_file E = Some Directory →
     (∃ p n, p ≠ config_file E ∧ path_inside (config_file E) p = true
             ∧ files st !! p = Some n) →
     CheckAndRunWelcome E old_folder false st = None).
Proof.
  split; [|split].
  - intros ok st' Hw. apply CheckAndRunWelcome_returns in Hw as (H1 & H2 & H3 & _). done.
  - intros Hreg ->. split; [by apply CheckAndRunWelcome_throws|].
    destruct (CheckAndRunWelcome E old_folder false st) as [[ok st']|] eqn:Hw; [|by left].
    right. exists st'. apply CheckAndRunWelcome_returns in Hw as (H1 & _).
    assert (ok = false) as -> by (by apply H1). done.
  - intros Hdir Hentries. apply CheckAndRunWelcome_throws.
    + unfold is_regular_file. by rewrite Hdir.
    + left. split; [done|]. by apply has_entries_spec.
Qed.

(** When the configuration file exists, [CheckAndRunWelcome] shows no dialog
    and writes nothing: the only change is that the tree of the old
    configuration folder is gone. *)
Lemma CheckAndRunWelcome_existing old_folder accepted st fs :
  is_regular_file (files st) (config_file E) = true →
  remove_all E old_folder (files st) = Some fs →
  CheckAndRunWelcome E old_folder accepted st = Some (true, with_files fs st)
  ∧ ∀ p, fs !! p = if path_inside old_folder p then None else files st !! p.
Proof.
  intros Hreg Hfs. unfold CheckAndRunWelcome. rewrite Hreg. cbn. rewrite Hfs.
  split; [done|]. intros p. by apply lookup_remove_all.
Qed.






End Welcome.

(** X9, with the dialog declined: on the sample state the written file is
    removed again, and with a directory that is not empty in the way the
    check throws. *)
Lemma CheckAndRunWelcome_declined_sample :
  (∃ st', CheckAndRunWelcome Sample.env Scenario.old_folder false Sample.state
          = Some (false, st')
          ∧ files st' !! config_file Sample.env = None)
  ∧ CheckAndRunWelcome Sample.env Scenario.old_folder false Scenario.directory_in_the_way
    = None.
Proof.
  destruct (CheckAndRunWelcome_declined Sample.env Scenario.old_folder false Sample.state)
    as (Hret & Hthrows & _).
  destruct (CheckAndRunWelcome_declined Sample.env Scenario.old_folder false
              Scenario.directory_in_the_way) as (_ & _ & Hthrow).
  split.
  - destruct (Hthrows eq_refl eq_refl) as [Hiff [Hnone | [st' Hst']]].
    + exfalso. apply Hiff in Hnone as [[Hd _]|[[n Hn] _]]; discriminate.
    + exists st'. split; [exact Hst'|].
      destruct (Hret false st' Hst') as (_ & H2 & _). exact (proj1 (H2 eq_refl)).
  - apply Hthrow; [reflexivity|].
    exists "C:/TranslucentTB/config.json/notes.txt", (RegularFile "notes").
    split; [discriminate|]. split; reflexivity.
Defined.



(** ** What the menu shows *)

Section Refresh.
Context (E : Env).

(** The callbacks [BindByMap] registers are those of its map's entries, and
    its refresh handler is that of the map. *)
Lemma BindByMap_tables {T} `{Countable T} t (map : gmap T MenuId) getter setter :
  callbacks (BindByMap E t map getter setter)
  = callbacks t ++ ((λ kv, (kv.2, setter kv.1)) <$> map_to_list map)
  ∧ refreshes (BindByMap E t map getter setter) = refreshes t ++ radio_refresh E map getter.
Proof.
  unfold BindByMap, radio_refresh.
  assert (Hfold : ∀ l t0,
    let t1 := foldl (λ tr '(new_value, id),
                       RegisterContextMenuCallback id (setter new_value) tr) t0 l in
    callbacks t1 = callbacks t0 ++ ((λ kv, (kv.2, setter kv.1)) <$> l)
    ∧ refreshes t1 = refreshes t0).
  { induction l as [|[k v] l IH]; intros t0; cbn.
    - by rewrite app_nil_r.
    - destruct (IH (RegisterContextMenuCallback v (setter k) t0)) as [-> ->].
      cbn. by rewrite <- app_assoc. }
  destruct (Hfold (map_to_list map) t) as [Hc Hr].
  destruct (minmax_element _ _) as [[mn mx]|]; cbn; rewrite Hc, Hr;
    by rewrite ?app_nil_r.
Qed.

(** [minmax_element] under [map_value_compare]: both results are elements,
    and every element lies between them. *)
Lemma minmax_fold_bounds {T} (l : list (T * MenuId)) (mn0 mx0 mn mx : T * MenuId) :
  foldl (λ '(mn, mx) y,
           (if map_value_compare E y mn then y else mn,
            if map_value_compare E y mx then mx else y)) (mn0, mx0) l = (mn, mx) →
  (mn = mn0 ∨ mn ∈ l) ∧ (mx = mx0 ∨ mx ∈ l)
  ∧ (id_value E mn.2 ≤ id_value E mn0.2)%N ∧ (id_value E mx0.2 ≤ id_value E mx.2)%N
  ∧ ∀ z, z ∈ l → (id_value E mn.2 ≤ id_value E z.2 ≤ id_value E mx.2)%N.
Proof.
  revert mn0 mx0. induction l as [|y l IH]; intros mn0 mx0; cbn.
  - intros [= -> ->]. split; [by left|]. split; [by left|]. split; [lia|]. split; [lia|].
    intros z Hz. by apply elem_of_nil in Hz.
  - intros Hf. apply IH in Hf as (Hmn & Hmx & Hlo & Hhi & Hall).
    unfold map_value_compare in *.
    assert (Hmn' : mn = mn0 ∨ mn ∈ y :: l).
    { destruct Hmn as [->|?]; [|right; by right].
      case_bool_decide; [right; by left | by left]. }
    assert (Hmx' : mx = mx0 ∨ mx ∈ y :: l).
    { destruct Hmx as [->|?]; [|right; by right].
      case_bool_decide; [by left | right; by left]. }
    split; [exact Hmn'|]. split; [exact Hmx'|].
    repeat case_bool_decide; cbn in *.
    all: split; [lia|]; split; [lia|].
    all: intros z [->|Hz]%elem_of_cons; [lia | by apply Hall].
Qed.

(** [minmax_element] under [map_value_compare]: both results are elements,
    and every element lies between them. *)
Lemma minmax_element_bounds {T} (l : list (T * MenuId)) mn mx :
  minmax_element (map_value_compare E) l = Some (mn, mx) →
  mn ∈ l ∧ mx ∈ l
  ∧ ∀ z, z ∈ l → (id_value E mn.2 ≤ id_value E z.2 ≤ id_value E mx.2)%N.
Proof.
  destruct l as [|x0 l]; [discriminate|]. cbn. intros [= Hf].
  apply minmax_fold_bounds in Hf as (Hmn & Hmx & Hlo & Hhi & Hall).
  split; [destruct Hmn as [->|?]; [by left | by right]|].
  split; [destruct Hmx as [->|?]; [by left | by right]|].
  intros z [->|Hz]%elem_of_cons; [lia | by apply Hall].
Qed.

(** X12: the radio group [BindByMap] hands to [CheckRadio] runs from the
    smallest to the largest menu identifier of the map, both taken from the
    map, so that it holds the identifier of every entry, and the checked item
    is the one the map gives for the current value. *)
Theorem BindByMap_radio_range {T} `{Countable T} t (map : gmap T MenuId) getter setter :
  refreshes (BindByMap E t map getter setter) = refreshes t ++ radio_refresh E map getter
  ∧ ∀ f st ops, f ∈ radio_refresh E map getter → f st = Some ops →
      ∃ first last item,
        ops = [CheckRadio first last item]
        ∧ map !! getter st = Some item
        ∧ (∃ k, map !! k = Some first) ∧ (∃ k, map !! k = Some last)
        ∧ ∀ k id, map !! k = Some id →
                  (id_value E first ≤ id_value E id ≤ id_value E last)%N.
Proof.
  split; [apply BindByMap_tables|].
  intros f st ops Hf Hops. unfold radio_refresh in Hf.
  destruct (minmax_element _ _) as [[mn mx]|] eqn:Hmm; [|by apply elem_of_nil in Hf].
  apply list_elem_of_singleton in Hf. subst f.
  destruct (map !! getter st) as [item|] eqn:Hitem; [|discriminate].
  cbn in Hops. injection Hops as <-.
  apply minmax_element_bounds in Hmm as (Hmn & Hmx & Hall).
  destruct mn as [kmn mn], mx as [kmx mx].
  apply elem_of_map_to_list in Hmn, Hmx.
  exists mn, mx, item. repeat split; eauto.
  all: apply (Hall (k, id)); by apply elem_of_map_to_list.
Qed.

(** X13: [BindByMap], given a reference, registers for each entry of the
    map a callback under the entry's menu identifier that assigns the
    entry's key through the reference; once it has run, the refresh handler
    checks that very item. *)
Theorem BindByMap_ref_entry {T} `{Countable T} t (map : gmap T MenuId) (value : Ref T)
    new_value id st :
  map !! new_value = Some id →
  (∀ c, ref_get value (ref_set value new_value c) = new_value) →
  let t' := BindByMap_ref E t map value in
  (id, λ s, assign_member value new_value s) ∈ callbacks t'
  ∧ ∃ f first last,
      f ∈ refreshes t'
      ∧ f (assign_member value new_value st) = Some [CheckRadio first last id].
Proof.
  intros Hid Hlaw t'. subst t'. unfold BindByMap_ref.
  destruct (BindByMap_tables t map (λ s, ref_get value (cfg s))
              (λ new_value s, assign_member value new_value s)) as [-> ->].
  split.
  - apply elem_of_app. right.
    apply (list_elem_of_fmap_2 (λ kv : T * MenuId,
             (kv.2, (λ new_value s, assign_member value new_value s) kv.1)) _ (new_value, id)).
    by apply elem_of_map_to_list.
  - unfold radio_refresh.
    destruct (minmax_element _ _) as [[mn mx]|] eqn:Hmm.
    + eexists _, mn.2, mx.2. split.
      * apply elem_of_app. right. by apply list_elem_of_singleton.
      * cbn. by rewrite Hlaw, Hid.
    + exfalso. unfold minmax_element in Hmm.
      destruct (map_to_list map) as [|kv l] eqn:Hl; [|discriminate].
      apply map_to_list_empty_iff in Hl. subst map. by rewrite lookup_empty in Hid.
Qed.

Lemma InitializeTray_refreshes st0 :
  refreshes (tray (InitializeTray E st0).1) = menu_refreshes E.
Proof. destruct E as [? ? [] ? ? ? ? ? ? ? ?]; reflexivity. Qed.

Lemma radio_refresh_total {T} `{Countable T} (map : gmap T MenuId) getter st :
  is_Some (map !! getter st) →
  ¬ Exists (λ f, f st = None) (radio_refresh E map getter).
Proof.
  intros [item Hitem] Hex. unfold radio_refresh in Hex.
  destruct (minmax_element _ _) as [[mn mx]|]; [|by apply Exists_nil in Hex].
  apply Exists_cons in Hex as [Hex|Hex]; [|by apply Exists_nil in Hex].
  by rewrite Hitem in Hex.
Qed.

Lemma radio_refresh_missing {T} `{Countable T} (map : gmap T MenuId) getter st k id :
  map !! k = Some id → map !! getter st = None →
  Exists (λ f, f st = None) (radio_refresh E map getter).
Proof.
  intros Hk Hnone. unfold radio_refresh.
  destruct (minmax_element _ _) as [[mn mx]|] eqn:Hmm.
  - apply Exists_cons. left. by rewrite Hnone.
  - exfalso. unfold minmax_element in Hmm.
    destruct (map_to_list map) as [|kv l] eqn:Hl; [|discriminate].
    apply map_to_list_empty_iff in Hl. subst map. by rewrite lookup_empty in Hk.
Qed.

Lemma appearance_refreshes_total appearance enableId (map : gmap ACCENT_STATE MenuId) st :
  (∀ a, is_Some (map !! a)) →
  ¬ Exists (λ f, f st = None) (appearance_refreshes E appearance enableId map).
Proof.
  intros Htotal. unfold appearance_refreshes. rewrite !Exists_app.
  intros [Hex|[Hex|Hex]].
  - apply Exists_cons in Hex as [Hex|Hex]; [done | by apply Exists_nil in Hex].
  - by eapply radio_refresh_total.
  - apply Exists_exists in Hex as (f & Hf & Hnone).
    apply list_elem_of_fmap in Hf as (kv & -> & _). done.
Qed.

Lemma accent_maps_total :
  Forall (λ m : gmap ACCENT_STATE MenuId, ∀ a, is_Some (m !! a)) accent_maps.
Proof. unfold accent_maps. repeat constructor; intros []; vm_compute; eauto. Qed.

Lemma PEEK_BUTTON_MAP_total p : is_Some (PEEK_BUTTON_MAP !! p).
Proof. destruct p; vm_compute; eauto. Qed.

(** The log levels [LOG_BUTTON_MAP] has no entry for. *)
Lemma LOG_BUTTON_MAP_missing l :
  LOG_BUTTON_MAP !! l = None ↔ l = level_trace ∨ l = level_critical.
Proof.
  destruct l; vm_compute; split; intros H; try discriminate; auto;
    destruct H as [H|H]; discriminate.
Qed.

(** X14: of all refresh handlers of the menu, only the one of the log
    levels can fail: [map.at] throws for it exactly when the logger runs at
    [trace] or [critical], the two levels without a menu item; every other
    handler always produces its update. *)
Theorem menu_refresh_fails st0 st :
  Exists (λ f, f st = None) (refreshes (tray (InitializeTray E st0).1))
  ↔ log_level st = level_trace ∨ log_level st = level_critical.
Proof.
  rewrite InitializeTray_refreshes. unfold menu_refreshes.
  pose proof accent_maps_total as Hacc. unfold accent_maps in Hacc.
  rewrite !Forall_cons in Hacc. destruct Hacc as (Hd & Hv & Hm & Hs & Hc & Ht & _).
  rewrite !Exists_app. rewrite <- LOG_BUTTON_MAP_missing. split.
  - intros [Hex|[Hex|[Hex|[Hex|[Hex|[Hex|[Hex|[Hex|[Hex|Hex]]]]]]]]].
    + apply Exists_cons in Hex as [Hex|Hex]; [done | by apply Exists_nil in Hex].
    + exfalso. eapply radio_refresh_total; [|exact Hex]. apply Hd.
    + exfalso. by eapply appearance_refreshes_total; [|exact Hex].
    + exfalso. by eapply appearance_refreshes_total; [|exact Hex].
    + exfalso. by eapply appearance_refreshes_total; [|exact Hex].
    + exfalso. by eapply appearance_refreshes_total; [|exact Hex].
    + exfalso. by eapply appearance_refreshes_total; [|exact Hex].
    + exfalso. eapply radio_refresh_total; [|exact Hex]. apply PEEK_BUTTON_MAP_total.
    + destruct (LOG_BUTTON_MAP !! log_level st) eqn:Hl; [|done].
      exfalso. eapply radio_refresh_total; [|exact Hex].
      unfold Log_GetLevel. rewrite Hl. eauto.
    + apply Exists_cons in Hex as [Hex|Hex]; [done|].
      apply Exists_cons in Hex as [Hex|Hex]; [done | by apply Exists_nil in Hex].
  - intros Hnone. do 8 right. left.
    by apply (radio_refresh_missing LOG_BUTTON_MAP Log_GetLevel st level_off ID_LOG_OFF).
Qed.

End Refresh.

(** X13, for the entry of the desktop map for the normal accent. *)
Lemma BindByMap_ref_entry_sample :
  let t := BindByMap_ref Sample.env {| callbacks := []; refreshes := []; updates := [] |}
             DESKTOP_BUTTOM_MAP (ref_Accent cfg_ref.DesktopAppearance) in
  (ID_DESKTOP_NORMAL,
   λ s, assign_member (ref_Accent cfg_ref.DesktopAppearance) ACCENT_NORMAL s) ∈ callbacks t.
Proof.
  apply (BindByMap_ref_entry Sample.env {| callbacks := []; refreshes := []; updates := [] |}
           DESKTOP_BUTTOM_MAP (ref_Accent cfg_ref.DesktopAppearance)
           ACCENT_NORMAL ID_DESKTOP_NORMAL Sample.state eq_refl).
  intros c. reflexivity.
Defined.

(** ** What the menu changes *)

Section Items.
Context (E : Env).

(** X15: activating a check item of the menu negates the member it is bound
    to; activating it a second time brings the whole configuration back. *)
Theorem check_item_twice st0 st :
  let t := tray (InitializeTray E st0).1 in
  Forall (λ '(item, value),
      ref_get value (cfg (activate t item st)) = negb (ref_get value (cfg st))
      ∧ cfg (activate t item (activate t item st)) = cfg st) bool_items.
Proof.
  intros t. subst t. unfold bool_items.
  destruct E as [an cf hp ic dc de se iv cfo cfi mw].
  destruct st as [c s f q tr ll li au mb qu ca].
  destruct c as [d [ve vb] [me mbs] [se' sb] [ce cb] [te tb] p u h ds lv].
  repeat constructor.
  all: destruct hp, u, ve, me, se', ce, te, ds; vm_compute; reflexivity.
Qed.

(** X16: no menu item changes a colour, and neither does a window message
    other than [WM_FILECHANGED] or the folder change reader: a colour changes
    only when the configuration is loaded from the file. *)
Theorem colours_change_only_on_reload st0 st :
  let app := (InitializeTray E st0).1 in
  (∀ id, colours (cfg (activate (tray app) id st)) = colours (cfg st))
  ∧ (∀ m, msg m ≠ WM_FILECHANGED →
          colours (cfg (dispatch (window app) m st).1) = colours (cfg st))
  ∧ (∀ file, colours (cfg (watcher app file st)) = colours (cfg st)).
Proof.
  intros app. subst app. split; [|split].
  - intros id.
    destruct (activate_saving_items E st0 st) as (Hedit & Hdefault & Hexit & Hhide).
    pose proof (SaveConfig_cfg E (cfg st) (config_file E) false st) as Hc.
    pose proof (SaveConfig_cfg E (DefaultConfig E) (config_file E) false st) as Hc'.
    destruct id.
    all: try solve [
      clear Hedit Hdefault Hexit Hhide Hc Hc';
      destruct E as [an cf hp ic dc de se iv cfo cfi mw];
      destruct st as [c s f q tr ll li au mb qu ca];
      destruct hp; reflexivity ].
    + rewrite Hedit. cbn [call with_calls cfg]. by rewrite Hc.
    + rewrite Hdefault. by rewrite Hc'.
    + rewrite Hhide. cbn zeta. change (msgbox_yes (call _ st)) with (msgbox_yes st).
      destruct (msgbox_yes st); [|done]. by rewrite SaveConfig_cfg.
    + rewrite Hexit. cbn [PostQuitMessage with_quit cfg]. by rewrite Hc.
  - intros m Hm. by rewrite dispatch_cfg.
  - intros file. rewrite InitializeTray_watcher. by destruct (_ || _).
Qed.

End Items.

(** ** The autostart item *)

Section Autostart.
Context (E : Env).

(** X17: with a package identity, the refresh leaves the autostart item
    enabled exactly in the startup states [Enabled] and [Disabled] and
    checked exactly in [Enabled] and [EnabledByPolicy], and activating the
    item asks for [Disabled] when the state is [Enabled] and for [Enabled]
    otherwise: wherever the item is enabled it asks for the opposite of what
    its check mark shows.  Without a package identity the item has no
    callback, is removed from the menu, and is never enabled. *)
Theorem autostart_item st0 st ops :
  RefreshMenu E st = Some ops →
  let t := tray (InitializeTray E st0).1 in
  (HasPackageIdentity E = true →
     (EnableItem ID_AUTOSTART true ∈ ops
        ↔ autostart st = StartupEnabled ∨ autostart st = Disabled)
     ∧ (CheckItem ID_AUTOSTART true ∈ ops
        ↔ autostart st = StartupEnabled ∨ autostart st = EnabledByPolicy)
     ∧ activate t ID_AUTOSTART st
       = call (Call_SetStartupState
                 (if decide (autostart st = StartupEnabled)
                  then Disabled else StartupEnabled)) st)
  ∧ (HasPackageIdentity E = false →
     activate t ID_AUTOSTART st = st
     ∧ RemoveItem ID_AUTOSTART ∈ updates t
     ∧ (EnableItem ID_AUTOSTART true ∉ ops)
     ∧ (CheckItem ID_AUTOSTART true ∉ ops)).
Proof.
  intros Hops t. subst t. unfold RefreshMenu in Hops. injection Hops as <-.
  destruct E as [an cf hp ic dc de se iv cfo cfi mw]. cbn [HasPackageIdentity].
  split; intros ->.
  - split; [|split].
    + rewrite list_elem_of_In. destruct (autostart st); cbn; split; intros H.
      all: first [ by auto
                 | repeat (destruct H as [H|H]; try discriminate H); done
                 | destruct H as [H|H]; discriminate H
                 | repeat (first [left; reflexivity | right]) ].
    + rewrite list_elem_of_In. destruct (autostart st); cbn; split; intros H.
      all: first [ by auto
                 | repeat (destruct H as [H|H]; try discriminate H); done
                 | destruct H as [H|H]; discriminate H
                 | repeat (first [left; reflexivity | right]) ].
    + destruct st as [c s f q tr ll li [] mb qu ca]; vm_compute; reflexivity.
  - split; [vm_compute; reflexivity|]. split; [by left|].
    split; rewrite list_elem_of_In; cbn; intros H;
      repeat (destruct H as [H|H]; try discriminate H); done.
Qed.

End Autostart.

(** X17, on the sample program, which has no package identity. *)
Lemma autostart_item_sample :
  activate (tray Sample.app) ID_AUTOSTART Sample.state = Sample.state
  ∧ RemoveItem ID_AUTOSTART ∈ updates (tray Sample.app).
Proof.
  destruct (autostart_item Sample.env Sample.state Sample.state _ eq_refl) as [_ H].
  destruct (H eq_refl) as (Hact & Hrem & _). split; [exact Hact | exact Hrem].
Defined.
